(** * Reels: verification of the crop-centre planner and tracker of toReel.py

    A shallow embedding of the decision logic of [src/toReel.py]:
    [cluster_people], [MovementPlanner], [PersonTracker] and the crop
    window arithmetic of [process_frame] / [process_video].

    Numeric model.  Python [float] values are modelled by the real numbers
    [R] with exact arithmetic; rounding is not modelled.  Python [int]
    values are [Z] or [nat] (counters and indices that only grow from 0).
    Comparisons of the source are [decide] on the corresponding order of
    [R], [Z] or [nat].  Python exceptions raised by the embedded code
    (indexing out of range, division by zero, arithmetic on [None]) are
    results of type [result].  [OverflowError], which [**] raises when a
    float square leaves the float range, has no counterpart over [R]:
    the model is exact in this respect for bounded (normalized)
    coordinates, where no square exceeds 1. *)

From Stdlib Require Import Reals Lra Lia ZArith.
From stdpp Require Import base decidable option list.

Open Scope R_scope.

(* ===================================================================== *)
(** ** Python values and exceptions *)
(* ===================================================================== *)

Module Py.

Inductive exn : Type :=
| TypeError
| ZeroDivisionError
| IndexError.

Inductive result (A : Type) : Type :=
| Ok (a : A)
| Raise (e : exn).
Arguments Ok {A} a.
Arguments Raise {A} e.

Definition bind {A B : Type} (m : result A) (k : A -> result B) : result B :=
  match m with
  | Ok a => k a
  | Raise e => Raise e
  end.

#[global] Instance Rlt_decision (x y : R) : Decision (x < y) := Rlt_dec x y.
#[global] Instance Rgt_decision (x y : R) : Decision (x > y) := Rgt_dec x y.
#[global] Instance Rle_decision (x y : R) : Decision (x <= y) := Rle_dec x y.
#[global] Instance Rge_decision (x y : R) : Decision (x >= y) := Rge_dec x y.
#[global] Instance Req_decision : EqDecision R := Req_dec_T.
#[global] Instance nat_gt_decision (x y : nat) : Decision (x > y)%nat :=
  decide (y < x)%nat.
#[global] Instance nat_ge_decision (x y : nat) : Decision (x >= y)%nat :=
  decide (y <= x)%nat.

(** [a / b] on floats: raises on a zero divisor. *)
Definition div (a b : R) : result R :=
  if decide (b = 0) then Raise ZeroDivisionError else Ok (a / b).

(** [int(x)]: truncation towards zero. *)
Definition int (x : R) : Z :=
  if decide (0 <= x) then Int_part x else (- Int_part (- x))%Z.

(** [abs(x)] and [min(a, b)]. *)
Definition abs (x : R) : R := Rabs x.
Definition min (a b : R) : R := if decide (b < a) then b else a.

(** [math.sqrt(x)] on a non-negative argument. *)
Definition math_sqrt (x : R) : R := sqrt x.

End Py.

Import Py.

Notation "'let*' x ':=' m 'in' k" := (Py.bind m (fun x => k))
  (at level 10, x name, m at level 100, k at level 200).

(** Constants (lines 13-16). *)
Definition DETECTION_CONFIDENCE_THRESHOLD : R := 3 / 10.
Definition CONFIDENCE_MARGIN : R := 15 / 100.
Definition DEFAULT_CENTER : R := 1 / 2.
Definition ASPECT_RATIO : R := 9 / 16.

(** A merged cluster, the tuple [(cluster_id, avg_x, avg_y, max_confidence)]
    returned by [cluster_people]; [cluster[0]] .. [cluster[3]]. *)
Record Cluster : Type := mkCluster {
  cl_id : nat;
  cl_x : R;
  cl_y : R;
  cl_conf : R
}.

(* ===================================================================== *)
(** ** PersonTracker (lines 269-372) *)
(* ===================================================================== *)

Module Tracker.

(** [state['new_target']] *)
Record NewTarget : Type := mkNewTarget {
  nt_id : option nat;
  nt_confidence : option R;
  nt_frames : nat
}.

(** [self.state] *)
Record State : Type := mkState {
  current_id : option nat;
  current_confidence : option R;
  position : R * R;
  lost_frames : nat;
  lock_countdown : nat;
  new_target : NewTarget
}.

Definition wait_frames : nat := 30.
Definition lock_frames : nat := 45.

(** The status strings returned by [update] and [handle_no_detection],
    one constructor per message, with the values the message formats. *)
Inductive Status : Type :=
| SceneChange                       (* "Scene change detected. Resetting to center." *)
| Initializing (id : nat)           (* "Initializing on person {id}." *)
| MovedTooFar (id : nat)            (* "Person moved too far. Switching to person {id}." *)
| Following (id : nat)              (* "Following person {id}." *)
| NotStrongEnough (id : nat)        (* "Candidate not strong enough; continuing on person {id}." *)
| InLock (id : nat)                 (* "In lock; continuing on person {id}." *)
| CandidateStarted (id : nat)       (* "Candidate switch to person {id} started. (1/{wait_frames})" *)
| Switched (id : nat)               (* "Switched to person {id}. Lock initiated." *)
| Buffering (id : nat) (n : nat)    (* "Buffering candidate switch to person {id}... ({n}/{wait_frames})" *)
| Holding (n : nat)                 (* "No detection; holding last position ({n}/{wait_frames})." *)
| LostReset.                        (* "No detection for buffer duration. Resetting to center." *)

(** [__init__] and [reset] build the same state. *)
Definition init : State :=
  {| current_id := None;
     current_confidence := None;
     position := (DEFAULT_CENTER, DEFAULT_CENTER);
     lost_frames := 0;
     lock_countdown := 0;
     new_target := {| nt_id := None; nt_confidence := None; nt_frames := 0 |} |}.

Definition reset (st : State) : State := init.

Definition update_position (st : State) (x y : R) : State :=
  {| current_id := current_id st;
     current_confidence := current_confidence st;
     position := (x, y);
     lost_frames := lost_frames st;
     lock_countdown := lock_countdown st;
     new_target := new_target st |}.

Definition get_position (st : State) : R * R := position st.

Definition distance (x1 y1 x2 y2 : R) : R :=
  math_sqrt ((x2 - x1) ^ 2 + (y2 - y1) ^ 2).

(** Field assignments [self.state[...] = v]. *)
Definition set_current (st : State) (id : nat) (conf : R) : State :=
  {| current_id := Some id;
     current_confidence := Some conf;
     position := position st;
     lost_frames := lost_frames st;
     lock_countdown := lock_countdown st;
     new_target := new_target st |}.

Definition set_current_confidence (st : State) (conf : R) : State :=
  {| current_id := current_id st;
     current_confidence := Some conf;
     position := position st;
     lost_frames := lost_frames st;
     lock_countdown := lock_countdown st;
     new_target := new_target st |}.

Definition set_lost_frames (st : State) (n : nat) : State :=
  {| current_id := current_id st;
     current_confidence := current_confidence st;
     position := position st;
     lost_frames := n;
     lock_countdown := lock_countdown st;
     new_target := new_target st |}.

Definition set_lock_countdown (st : State) (n : nat) : State :=
  {| current_id := current_id st;
     current_confidence := current_confidence st;
     position := position st;
     lost_frames := lost_frames st;
     lock_countdown := n;
     new_target := new_target st |}.

Definition set_new_target (st : State) (nt : NewTarget) : State :=
  {| current_id := current_id st;
     current_confidence := current_confidence st;
     position := position st;
     lost_frames := lost_frames st;
     lock_countdown := lock_countdown st;
     new_target := nt |}.

(** [new_target['id'] = None; new_target['frames'] = 0]: the stored
    confidence is left as it is. *)
Definition clear_new_target (st : State) : State :=
  set_new_target st
    {| nt_id := None;
       nt_confidence := nt_confidence (new_target st);
       nt_frames := 0 |}.

(** [PersonTracker.update] (lines 295-353). *)
Definition update (st : State) (cluster : Cluster)
    (frame_diff scene_change_threshold movement_threshold : R)
    : result (State * Status) :=
  if decide (frame_diff > scene_change_threshold) then
    Ok (reset st, SceneChange)
  else
    let st := set_lost_frames st (lost_frames st + 1) in
    match current_id st with
    | None =>
        let st := set_current st (cl_id cluster) (cl_conf cluster) in
        let st := update_position st (cl_x cluster) (cl_y cluster) in
        Ok (st, Initializing (cl_id cluster))
    | Some cur =>
        if decide (distance (fst (get_position st)) (snd (get_position st))
                            (cl_x cluster) (cl_y cluster)
                   > movement_threshold) then
          let st := set_current st (cl_id cluster) (cl_conf cluster) in
          let st := update_position st (cl_x cluster) (cl_y cluster) in
          Ok (st, MovedTooFar (cl_id cluster))
        else if decide (cl_id cluster = cur) then
          let st := update_position st (cl_x cluster) (cl_y cluster) in
          let st := set_current_confidence st (cl_conf cluster) in
          let st := clear_new_target st in
          Ok (st, Following cur)
        else
          match current_confidence st with
          | None => Raise TypeError
          | Some cur_conf =>
              if decide (cl_conf cluster < cur_conf + CONFIDENCE_MARGIN) then
                let st := update_position st (cl_x cluster) (cl_y cluster) in
                let st := clear_new_target st in
                Ok (st, NotStrongEnough cur)
              else if decide (lock_countdown st > 0)%nat then
                let st := update_position st (cl_x cluster) (cl_y cluster) in
                Ok (st, InLock cur)
              else
                let start :=
                  let st := set_new_target st
                              {| nt_id := Some (cl_id cluster);
                                 nt_confidence := Some (cl_conf cluster);
                                 nt_frames := 1 |} in
                  Ok (st, CandidateStarted (cl_id cluster)) in
                match nt_id (new_target st) with
                | None => start
                | Some pending_id =>
                    if decide (pending_id <> cl_id cluster) then start
                    else
                      match nt_confidence (new_target st) with
                      | None => Raise TypeError
                      | Some nt_conf =>
                          let* new_x :=
                            Py.div (nt_conf * cl_x cluster
                                    + cur_conf * fst (position st))
                                   (nt_conf + cur_conf) in
                          let* new_y :=
                            Py.div (nt_conf * cl_y cluster
                                    + cur_conf * snd (position st))
                                   (nt_conf + cur_conf) in
                          let st := update_position st new_x new_y in
                          let frames := (nt_frames (new_target st) + 1)%nat in
                          let st := set_new_target st
                                      {| nt_id := Some pending_id;
                                         nt_confidence := Some nt_conf;
                                         nt_frames := frames |} in
                          if decide (frames >= wait_frames)%nat then
                            let st := set_current st pending_id nt_conf in
                            let blended_x :=
                              nt_conf * cl_x cluster
                              + (1 - nt_conf) * fst (position st) in
                            let blended_y :=
                              nt_conf * cl_y cluster
                              + (1 - nt_conf) * snd (position st) in
                            let st := update_position st blended_x blended_y in
                            let st := set_lock_countdown st lock_frames in
                            let st := clear_new_target st in
                            Ok (st, Switched pending_id)
                          else
                            Ok (st, Buffering pending_id frames)
                      end
                end
          end
    end.

(** [PersonTracker.handle_no_detection] (lines 355-364). *)
Definition handle_no_detection (st : State)
    (frame_diff scene_change_threshold : R) : State * Status :=
  if decide (frame_diff > scene_change_threshold) then
    (reset st, SceneChange)
  else
    let st := set_lost_frames st (lost_frames st + 1) in
    if decide (lost_frames st < wait_frames)%nat then
      (st, Holding (lost_frames st))
    else
      (reset st, LostReset).

(** The thresholds [process_frame] passes (lines 509, 519, 522). *)
Definition max_movement : R := 30.
Definition scene_change_threshold : R := 3000.

(** One frame of the tracker as [process_frame] drives it (lines 518-522):
    [cand] is the best cluster of the frame, [None] when [merged_people]
    is empty. *)
Definition track (st : State) (cand : option Cluster) (frame_diff : R)
    : result (State * Status) :=
  match cand with
  | None => Ok (handle_no_detection st frame_diff scene_change_threshold)
  | Some best_cluster =>
      update st best_cluster frame_diff scene_change_threshold max_movement
  end.

(** A stream of frames through one tracker; the final state. *)
Fixpoint run (st : State) (frames : list (option Cluster * R))
    : result State :=
  match frames with
  | [] => Ok st
  | (cand, frame_diff) :: rest =>
      let* r := track st cand frame_diff in
      run (fst r) rest
  end.

(** Normalized coordinates. *)
Definition unit_square (p : R * R) : Prop :=
  0 <= fst p <= 1 /\ 0 <= snd p <= 1.

Definition normalized (c : Cluster) : Prop :=
  unit_square (cl_x c, cl_y c).

End Tracker.

(* ===================================================================== *)
(** ** MovementPlanner (lines 113-264) *)
(* ===================================================================== *)

Module Planner.

(** An entry [(frame_num, x_pos, is_scene_change)] of [frame_data]. *)
Record FrameRecord : Type := mkFrameRecord {
  fr_num : nat;
  fr_x : R;
  fr_scene : bool
}.

(** The attributes that [plan_movement] reads or writes. *)
Record State : Type := mkState {
  frame_data : list FrameRecord;
  current_scene_start : nat;
  waiting_for_detection : bool;
  position_history : list R;
  in_transition : bool;
  stable_frames : nat;
  stable_frames_required : Z;
  is_centering : bool
}.

(** The attributes [__init__] sets once. *)
Definition default_x : R := DEFAULT_CENTER.
Definition max_movement_per_frame : R := 3 / 100.
Definition history_size : nat := 3.
Definition centering_weight : R := 4 / 10.
Definition fast_transition_threshold : R := 1 / 10.

(** [MovementPlanner(fps)] *)
Definition MovementPlanner (fps : R) : State :=
  {| frame_data := [];
     current_scene_start := 0;
     waiting_for_detection := false;
     position_history := [];
     in_transition := false;
     stable_frames := 0;
     stable_frames_required := Py.int (fps * (1 / 2));
     is_centering := false |}.

(** [frame_data[-1][1]] on a non-empty list; [None] on an empty one. *)
Definition last_x_of (data : list FrameRecord) : option R :=
  fr_x <$> last data.

(** [sum(l)]: the additions run from 0, left to right. *)
Definition py_sum (l : list R) : R := fold_left Rplus l 0.

(** The backfill loop of lines 149-153. *)
Definition backfill (scene_start : nat) (new_x : R) (rec : FrameRecord)
    : FrameRecord :=
  if decide (fr_num rec >= scene_start)%nat then
    if fr_scene rec then rec
    else {| fr_num := fr_num rec; fr_x := new_x; fr_scene := false |}
  else rec.

(** [MovementPlanner.plan_movement] (lines 132-194). *)
Definition plan_movement (pl : State) (frame_num : nat)
    (cluster : option Cluster) (frame_diff scene_change_threshold : R)
    : State :=
  if decide (frame_diff > scene_change_threshold) then
    {| frame_data :=
         frame_data pl
         ++ [{| fr_num := frame_num; fr_x := default_x; fr_scene := true |}];
       current_scene_start := frame_num;
       waiting_for_detection := true;
       position_history := [];
       in_transition := false;
       stable_frames := 0;
       stable_frames_required := stable_frames_required pl;
       is_centering := false |}
  else
    match waiting_for_detection pl, cluster with
    | true, Some c =>
        let new_x := cl_x c in
        {| frame_data :=
             backfill (current_scene_start pl) new_x <$> frame_data pl;
           current_scene_start := current_scene_start pl;
           waiting_for_detection := false;
           position_history := position_history pl;
           in_transition := in_transition pl;
           stable_frames := stable_frames pl;
           stable_frames_required := stable_frames_required pl;
           is_centering := is_centering pl |}
    | _, _ =>
        let target_x :=
          match cluster with
          | Some c => cl_x c
          | None => default (default_x) (last_x_of (frame_data pl))
          end in
        match last_x_of (frame_data pl) with
        | None =>
            {| frame_data :=
                 frame_data pl
                 ++ [{| fr_num := frame_num; fr_x := target_x;
                        fr_scene := false |}];
               current_scene_start := current_scene_start pl;
               waiting_for_detection := waiting_for_detection pl;
               position_history := position_history pl;
               in_transition := in_transition pl;
               stable_frames := stable_frames pl;
               stable_frames_required := stable_frames_required pl;
               is_centering := is_centering pl |}
        | Some last_x =>
            let distance_to_target := Py.abs (target_x - last_x) in
            let max_move := max_movement_per_frame in
            let movement := target_x - last_x in
            let target_x :=
              if decide (Py.abs movement > max_move) then
                last_x + (if decide (movement > 0) then max_move
                          else - max_move)
              else target_x in
            let '(stable, centering, history) :=
              if decide (distance_to_target < fast_transition_threshold) then
                let stable := (stable_frames pl + 1)%nat in
                (stable,
                 if decide (Z.of_nat stable >= stable_frames_required pl)%Z
                 then true else is_centering pl,
                 position_history pl)
              else (0%nat, false, []) in
            let '(history, target_x) :=
              if centering then
                let history := history ++ [target_x] in
                let history :=
                  if decide (length history > history_size)%nat
                  then drop 1 history else history in
                if decide (length history > 1)%nat then
                  let avg_pos := py_sum history / INR (length history) in
                  (history,
                   target_x * (1 - centering_weight)
                   + avg_pos * centering_weight)
                else (history, target_x)
              else (history, target_x) in
            {| frame_data :=
                 frame_data pl
                 ++ [{| fr_num := frame_num; fr_x := target_x;
                        fr_scene := false |}];
               current_scene_start := current_scene_start pl;
               waiting_for_detection := waiting_for_detection pl;
               position_history := history;
               in_transition := in_transition pl;
               stable_frames := stable;
               stable_frames_required := stable_frames_required pl;
               is_centering := centering |}
        end
    end.

(** A scene segment [(start_frame, end_frame, positions)]; [end_frame]
    is [frame_num - 1] at a cut, an integer. *)
Record Segment : Type := mkSegment {
  start_frame : nat;
  end_frame : Z;
  positions : list R
}.

(** The loop of [get_scene_segments] (lines 205-217): [i] is the index
    of [enumerate], [acc] the segments closed so far. *)
Fixpoint segments_loop (data : list FrameRecord) (i : nat)
    (acc : list Segment) (current_segment_start : nat)
    (current_positions : list R) : list Segment * nat * list R :=
  match data with
  | [] => (acc, current_segment_start, current_positions)
  | rec :: rest =>
      if fr_scene rec && bool_decide (i > 0)%nat then
        segments_loop rest (S i)
          (acc ++ [{| start_frame := current_segment_start;
                      end_frame := Z.of_nat (fr_num rec) - 1;
                      positions := current_positions |}])
          (fr_num rec) [fr_x rec]
      else
        segments_loop rest (S i) acc current_segment_start
          (current_positions ++ [fr_x rec])
  end.

(** [MovementPlanner.get_scene_segments] (lines 196-227). *)
Definition get_scene_segments (pl : State) : list Segment :=
  let '(segments, current_segment_start, current_positions) :=
    segments_loop (frame_data pl) 0 [] 0%nat [] in
  match current_positions, last (frame_data pl) with
  | _ :: _, Some rec =>
      segments ++ [{| start_frame := current_segment_start;
                      end_frame := Z.of_nat (fr_num rec);
                      positions := current_positions |}]
  | _, _ => segments
  end.

(** [range(start_frame, end_frame + 1)] *)
Definition frame_range (seg : Segment) : list nat :=
  seq (start_frame seg)
      (Z.to_nat (end_frame seg + 1 - Z.of_nat (start_frame seg))).

(** The smoothed value for one frame (lines 244-259). *)
Definition smooth_step (base_alpha delta_threshold last_x target_x : R) : R :=
  let delta := target_x - last_x in
  if decide (Py.abs delta < delta_threshold) then last_x
  else
    let distance_factor := Py.min (Py.abs delta * 2) 1 in
    let deceleration_alpha := base_alpha * distance_factor in
    let deceleration_alpha :=
      if decide (Py.abs delta < 1 / 10) then deceleration_alpha * (1 / 2)
      else deceleration_alpha in
    last_x + deceleration_alpha * delta.

(** The inner loop of [interpolate_and_smooth] (lines 240-262) from
    index [i] on: [frames] is what is left of the range.  Index [i] past
    the end of [positions] leaves the loop ([break]); a frame past the
    end of [smoothed_centers] raises. *)
Fixpoint smooth_frames (base_alpha delta_threshold : R) (positions : list R)
    (i : nat) (frames : list nat) (last_x : R) (smoothed_centers : list R)
    : result (list R) :=
  match frames with
  | [] => Ok smoothed_centers
  | frame :: rest =>
      match positions !! i with
      | None => Ok smoothed_centers
      | Some target_x =>
          let smoothed_x :=
            smooth_step base_alpha delta_threshold last_x target_x in
          if decide (frame < length smoothed_centers)%nat then
            smooth_frames base_alpha delta_threshold positions (S i) rest
              smoothed_x (<[frame := smoothed_x]> smoothed_centers)
          else Raise IndexError
      end
  end.

(** One segment (lines 238-262): [positions[0]] raises on an empty list. *)
Definition smooth_segment (base_alpha delta_threshold : R) (seg : Segment)
    (smoothed_centers : list R) : result (list R) :=
  match positions seg with
  | [] => Raise IndexError
  | last_x :: _ =>
      smooth_frames base_alpha delta_threshold (positions seg) 0
        (frame_range seg) last_x smoothed_centers
  end.

Fixpoint smooth_segments (base_alpha delta_threshold : R)
    (segments : list Segment) (smoothed_centers : list R)
    : result (list R) :=
  match segments with
  | [] => Ok smoothed_centers
  | seg :: rest =>
      let* sc := smooth_segment base_alpha delta_threshold seg
                   smoothed_centers in
      smooth_segments base_alpha delta_threshold rest sc
  end.

(** [MovementPlanner.interpolate_and_smooth] (lines 229-264). *)
Definition interpolate_and_smooth (pl : State) (total_frames : nat)
    (base_alpha delta_threshold : R) : result (list R) :=
  smooth_segments base_alpha delta_threshold (get_scene_segments pl)
    (replicate total_frames default_x).

(** The defaults of [interpolate_and_smooth] and the threshold
    [process_video] passes. *)
Definition base_alpha : R := 1 / 10.
Definition delta_threshold : R := 15 / 1000.
Definition scene_change_threshold : R := 3000.

(** The first pass of [process_video] (lines 398-421) from the loop
    state [(planner, frame_count)]: each frame gives its best cluster,
    if any, and its [frame_diff]. *)
Fixpoint first_pass (planner : State) (frame_count : nat)
    (frames : list (option Cluster * R)) : State :=
  match frames with
  | [] => planner
  | (best_cluster, frame_diff) :: rest =>
      first_pass
        (plan_movement planner frame_count best_cluster frame_diff
           scene_change_threshold)
        (S frame_count) rest
  end.

(** Both passes (lines 393-426). *)
Definition smoothed_centers_of (fps : R) (total_frames : nat)
    (frames : list (option Cluster * R)) : result (list R) :=
  interpolate_and_smooth (first_pass (MovementPlanner fps) 0 frames)
    total_frames base_alpha delta_threshold.

End Planner.

(* ===================================================================== *)
(** ** Crop window (process_frame lines 524-531, process_video 431-455) *)
(* ===================================================================== *)

Module Crop.

(** The pixel columns [(x_start, x_end)] of the crop for a normalized
    centre, computed from the source width and height.  [process_video]
    computes the same from the width and height read from the capture. *)
Definition crop_window (norm_center : R) (width height : Z) : Z * Z :=
  let crop_width := Py.int (IZR height * ASPECT_RATIO) in
  let x_center := Py.int (norm_center * IZR width) in
  let x_start := (x_center - crop_width / 2)%Z in
  let x_start :=
    if decide (x_start < 0)%Z then 0%Z
    else if decide (x_start + crop_width > width)%Z
         then (width - crop_width)%Z
         else x_start in
  let x_end := (x_start + crop_width)%Z in
  (x_start, x_end).

Definition crop_width_of (height : Z) : Z :=
  Py.int (IZR height * ASPECT_RATIO).

End Crop.

(* ===================================================================== *)
(** ** cluster_people (lines 77-108) *)
(* ===================================================================== *)

Module Clustering.

(** A detection [(person_id, keypoints)] with
    [keypoints[:3] = (y_pos, x_pos, confidence)]. *)
Record Person : Type := mkPerson {
  person_id : nat;
  y_pos : R;
  x_pos : R;
  confidence : R
}.

(** A cluster accumulator, the dict with keys [sum_x], [sum_y], [count]
    and [max_conf]. *)
Record Acc : Type := mkAcc {
  sum_x : R;
  sum_y : R;
  count : nat;
  max_conf : R
}.

(** Lines 89-91: the distance of a detection to the centre of a cluster. *)
Definition distance_to (cluster : Acc) (person : Person) : result R :=
  let* center_x := Py.div (sum_x cluster) (INR (count cluster)) in
  let* center_y := Py.div (sum_y cluster) (INR (count cluster)) in
  Ok (Py.math_sqrt ((x_pos person - center_x) ^ 2
                    + (y_pos person - center_y) ^ 2)).

(** Lines 93-97. *)
Definition merge (cluster : Acc) (person : Person) : Acc :=
  {| sum_x := sum_x cluster + x_pos person;
     sum_y := sum_y cluster + y_pos person;
     count := count cluster + 1;
     max_conf := if decide (confidence person > max_conf cluster)
                 then confidence person else max_conf cluster |}.

(** The inner loop (lines 88-99): [Some] of the updated clusters when
    the detection was added to one ([added = True], then [break]),
    [None] when the loop ends with [added = False]. *)
Fixpoint add_to_clusters (clusters : list Acc) (person : Person)
    (threshold : R) : result (option (list Acc)) :=
  match clusters with
  | [] => Ok None
  | cluster :: rest =>
      let* distance := distance_to cluster person in
      if decide (distance < threshold) then
        Ok (Some (merge cluster person :: rest))
      else
        let* r := add_to_clusters rest person threshold in
        Ok (cons cluster <$> r)
  end.

(** One round of the outer loop (lines 84-101). *)
Definition add_person (threshold : R) (clusters : list Acc) (person : Person)
    : result (list Acc) :=
  let* r := add_to_clusters clusters person threshold in
  match r with
  | Some clusters' => Ok clusters'
  | None =>
      Ok (clusters
          ++ [{| sum_x := x_pos person; sum_y := y_pos person;
                 count := 1; max_conf := confidence person |}])
  end.

Fixpoint add_people (threshold : R) (clusters : list Acc)
    (people : list Person) : result (list Acc) :=
  match people with
  | [] => Ok clusters
  | person :: rest =>
      let* clusters' := add_person threshold clusters person in
      add_people threshold clusters' rest
  end.

(** Lines 103-107: the output tuples, numbered from [i]. *)
Fixpoint merged_people (i : nat) (clusters : list Acc)
    : result (list Cluster) :=
  match clusters with
  | [] => Ok []
  | cluster :: rest =>
      let* avg_x := Py.div (sum_x cluster) (INR (count cluster)) in
      let* avg_y := Py.div (sum_y cluster) (INR (count cluster)) in
      let* out := merged_people (S i) rest in
      Ok ({| cl_id := i; cl_x := avg_x; cl_y := avg_y;
             cl_conf := max_conf cluster |} :: out)
  end.

(** [cluster_people(people, threshold)] *)
Definition cluster_people (people : list Person) (threshold : R)
    : result (list Cluster) :=
  let* clusters := add_people threshold [] people in
  merged_people 0 clusters.

(** *** The grouping the accumulators stand for *)

(** Mean of a list of reals, and the largest confidence of a group. *)
Definition mean (l : list R) : R := fold_right Rplus 0 l / INR (length l).

Definition max_confidence (group : list Person) : R :=
  match group with
  | [] => 0
  | person :: rest => fold_left Rmax (confidence <$> rest) (confidence person)
  end.

Definition centroid (group : list Person) : R * R :=
  (mean (x_pos <$> group), mean (y_pos <$> group)).

Definition centroid_distance (group : list Person) (person : Person) : R :=
  sqrt ((x_pos person - fst (centroid group)) ^ 2
        + (y_pos person - snd (centroid group)) ^ 2).

(** First fit: a detection joins the first group, in order of creation,
    whose centroid is closer than [threshold]; [None] when there is no
    such group. *)
Fixpoint join_first (threshold : R) (groups : list (list Person))
    (person : Person) : option (list (list Person)) :=
  match groups with
  | [] => None
  | group :: rest =>
      if decide (centroid_distance group person < threshold) then
        Some ((group ++ [person]) :: rest)
      else cons group <$> join_first threshold rest person
  end.

Definition place (threshold : R) (groups : list (list Person))
    (person : Person) : list (list Person) :=
  default (groups ++ [[person]]) (join_first threshold groups person).

Definition first_fit_groups (threshold : R) (people : list Person)
    : list (list Person) :=
  fold_left (place threshold) people [].

(** The output tuple of a group: its index, the mean position of its
    members and their largest confidence. *)
Definition cluster_of (i : nat) (group : list Person) : Cluster :=
  {| cl_id := i;
     cl_x := fst (centroid group);
     cl_y := snd (centroid group);
     cl_conf := max_confidence group |}.

End Clustering.

(* ===================================================================== *)
(** ** Detections to candidate (process_frame 516-522, process_video 412-419) *)
(* ===================================================================== *)

Module Pipeline.
Import Clustering.

(** A row [kp] of the model output, read through [kp[:3]] and [kp[2]]. *)
Record Keypoint : Type := mkKeypoint {
  kp_y : R;
  kp_x : R;
  kp_conf : R
}.

(** [[(i, kp) for i, kp in enumerate(keypoints)
      if kp[2] > DETECTION_CONFIDENCE_THRESHOLD]], the index starting at [i]. *)
Fixpoint people_from (i : nat) (keypoints : list Keypoint) : list Person :=
  match keypoints with
  | [] => []
  | kp :: rest =>
      if decide (kp_conf kp > DETECTION_CONFIDENCE_THRESHOLD) then
        {| person_id := i; y_pos := kp_y kp; x_pos := kp_x kp;
           confidence := kp_conf kp |} :: people_from (S i) rest
      else people_from (S i) rest
  end.

Definition people_of (keypoints : list Keypoint) : list Person :=
  people_from 0 keypoints.

(** [max(merged_people, key=lambda c: c[3])] on a non-empty list: the
    running maximum is replaced only by a strictly larger key, so the
    first of the largest is returned. *)
Definition max_by_conf (first : Cluster) (rest : list Cluster) : Cluster :=
  fold_left
    (fun best c => if decide (cl_conf c > cl_conf best) then c else best)
    rest first.

(** The clustering threshold both callers pass. *)
Definition merge_threshold : R := 5 / 100.

(** The tracker part of [process_frame] (lines 516-522). *)
Definition process_frame (tracker : Tracker.State) (keypoints : list Keypoint)
    (frame_diff : R) : result (Tracker.State * Tracker.Status) :=
  let people := people_of keypoints in
  let* merged_people := cluster_people people merge_threshold in
  match merged_people with
  | [] =>
      Ok (Tracker.handle_no_detection tracker frame_diff
            Tracker.scene_change_threshold)
  | c :: rest =>
      let best_cluster := max_by_conf c rest in
      Tracker.update tracker best_cluster frame_diff
        Tracker.scene_change_threshold Tracker.max_movement
  end.

(** A stream of frames through [process_frame]; the final tracker. *)
Fixpoint process_frames (tracker : Tracker.State)
    (frames : list (list Keypoint * R)) : result Tracker.State :=
  match frames with
  | [] => Ok tracker
  | (keypoints, frame_diff) :: rest =>
      let* r := process_frame tracker keypoints frame_diff in
      process_frames (fst r) rest
  end.

(** One round of the first pass of [process_video] (lines 412-419). *)
Definition plan_frame (planner : Planner.State) (frame_count : nat)
    (keypoints : list Keypoint) (frame_diff : R) : result Planner.State :=
  let people := people_of keypoints in
  let* merged_people := cluster_people people merge_threshold in
  match merged_people with
  | c :: rest =>
      let best_cluster := max_by_conf c rest in
      Ok (Planner.plan_movement planner frame_count (Some best_cluster)
            frame_diff Planner.scene_change_threshold)
  | [] =>
      Ok (Planner.plan_movement planner frame_count None frame_diff
            Planner.scene_change_threshold)
  end.

(** The first pass over a stream of frames, from the loop state
    [(planner, frame_count)]. *)
Fixpoint plan_frames (planner : Planner.State) (frame_count : nat)
    (frames : list (list Keypoint * R)) : result Planner.State :=
  match frames with
  | [] => Ok planner
  | (keypoints, frame_diff) :: rest =>
      let* planner' := plan_frame planner frame_count keypoints frame_diff in
      plan_frames planner' (S frame_count) rest
  end.

(** Lines 393-426: both passes, from the keypoint rows of the frames
    read to the smoothed centres. *)
Definition process_video_centers (fps : R) (total_frames : nat)
    (frames : list (list Keypoint * R)) : result (list R) :=
  let* planner := plan_frames (Planner.MovementPlanner fps) 0 frames in
  Planner.interpolate_and_smooth planner total_frames Planner.base_alpha
    Planner.delta_threshold.

(** Line 443-446: the centre the second pass uses for a frame. *)
Definition norm_center_of (smoothed_centers : list R) (frame_count : nat) : R :=
  if decide (frame_count < length smoothed_centers)%nat
  then default DEFAULT_CENTER (smoothed_centers !! frame_count)
  else DEFAULT_CENTER.

End Pipeline.

(* ===================================================================== *)
(** ** Properties of the online tracker *)
(* ===================================================================== *)

Module TrackerProofs.
Import Tracker.

Lemma sqrt2_lt_max_movement : sqrt 2 < max_movement.
Proof.
  unfold max_movement.
  replace 30 with (sqrt (30 * 30)) by (apply sqrt_square; lra).
  apply sqrt_lt_1_alt. lra.
Qed.

Lemma distance_unit_square (x1 y1 x2 y2 : R) :
  unit_square (x1, y1) -> unit_square (x2, y2) ->
  distance x1 y1 x2 y2 <= sqrt 2.
Proof.
  unfold unit_square; simpl. intros [Hx1 Hy1] [Hx2 Hy2].
  unfold distance, math_sqrt. apply sqrt_le_1_alt. nra.
Qed.

Lemma not_moved_too_far (st : State) (c : Cluster) :
  unit_square (position st) -> normalized c ->
  ~ distance (fst (position st)) (snd (position st)) (cl_x c) (cl_y c)
    > max_movement.
Proof.
  intros Hp Hc Hgt. destruct (position st) as [px py]; simpl in *.
  pose proof (distance_unit_square px py (cl_x c) (cl_y c) Hp Hc).
  pose proof sqrt2_lt_max_movement. lra.
Qed.

(** A weighted mean with non-negative weights stays in [0,1]. *)
Lemma weighted_mean_unit (a b x y : R) :
  0 < a -> 0 <= b -> 0 <= x <= 1 -> 0 <= y <= 1 ->
  0 <= (a * x + b * y) / (a + b) <= 1.
Proof.
  intros Ha Hb Hx Hy.
  assert (Hs : 0 < a + b) by lra.
  split.
  - apply Rmult_le_pos; [nra | left; apply Rinv_0_lt_compat; lra].
  - apply (Rmult_le_reg_r (a + b)); [lra|].
    unfold Rdiv. rewrite Rmult_assoc, Rinv_l by lra. nra.
Qed.

(** C10. With normalized coordinates the displacement computed by
    [update] is at most the square root of 2, so under the movement
    threshold 30 that [process_frame] passes, [update] never takes the
    branch that returns "Person moved too far". *)
Theorem moved_too_far_unreachable (st : State) (c : Cluster) (frame_diff : R) :
  unit_square (position st) ->
  normalized c ->
  distance (fst (get_position st)) (snd (get_position st)) (cl_x c) (cl_y c)
    <= sqrt 2
  /\ forall st' id,
       update st c frame_diff scene_change_threshold max_movement
       <> Ok (st', MovedTooFar id).
Proof.
  intros Hp Hc. split.
  - unfold get_position. destruct (position st) as [px py].
    apply distance_unit_square; assumption.
  - intros st' id. unfold update.
    destruct (decide (frame_diff > scene_change_threshold)); [discriminate|].
    simpl. destruct (current_id st) as [cur|]; [|discriminate].
    destruct (decide (distance _ _ _ _ > max_movement)) as [Hgt|_].
    { exfalso. exact (not_moved_too_far st c Hp Hc Hgt). }
    repeat (case_decide || case_match); try discriminate.
    all: unfold Py.bind, Py.div;
      repeat (case_decide || case_match); discriminate.
Qed.

Definition centre_person : Cluster := mkCluster 0 (1 / 2) (1 / 2) (1 / 2).
Definition rival_person : Cluster := mkCluster 1 (1 / 2) (1 / 2) (9 / 10).

Lemma init_unit_square : unit_square (position init).
Proof. unfold unit_square, init, DEFAULT_CENTER; simpl; lra. Qed.

Lemma centre_person_normalized : normalized centre_person.
Proof. unfold normalized, unit_square; simpl; lra. Qed.

Lemma rival_person_normalized : normalized rival_person.
Proof. unfold normalized, unit_square; simpl; lra. Qed.

(** *** The branches of [update], one equation each *)

Section Branches.
Variables (st : State) (c : Cluster) (frame_diff : R).
Variables (cur : nat) (cur_conf : R).
Hypothesis Hdiff : ~ frame_diff > scene_change_threshold.
Hypothesis Hcur : current_id st = Some cur.
Hypothesis Hconf : current_confidence st = Some cur_conf.
Hypothesis Hpos : unit_square (position st).
Hypothesis Hc : normalized c.

Let st1 : State := set_lost_frames st (lost_frames st + 1).

Lemma update_following :
  cl_id c = cur ->
  update st c frame_diff scene_change_threshold max_movement
  = Ok (clear_new_target
          (set_current_confidence
             (update_position st1 (cl_x c) (cl_y c)) (cl_conf c)),
        Following cur).
Proof using Hdiff Hcur Hpos Hc.
  intros Hid. unfold update.
  rewrite decide_False by exact Hdiff. simpl. rewrite Hcur.
  rewrite decide_False by (apply not_moved_too_far; assumption).
  rewrite decide_True by exact Hid. reflexivity.
Qed.

Lemma update_not_strong :
  cl_id c <> cur ->
  cl_conf c < cur_conf + CONFIDENCE_MARGIN ->
  update st c frame_diff scene_change_threshold max_movement
  = Ok (clear_new_target (update_position st1 (cl_x c) (cl_y c)),
        NotStrongEnough cur).
Proof using Hdiff Hcur Hconf Hpos Hc.
  intros Hid Hlt. unfold update.
  rewrite decide_False by exact Hdiff. simpl. rewrite Hcur.
  rewrite decide_False by (apply not_moved_too_far; assumption).
  rewrite decide_False by exact Hid. rewrite Hconf.
  rewrite decide_True by exact Hlt. reflexivity.
Qed.

Lemma update_in_lock :
  cl_id c <> cur ->
  cl_conf c >= cur_conf + CONFIDENCE_MARGIN ->
  (lock_countdown st > 0)%nat ->
  update st c frame_diff scene_change_threshold max_movement
  = Ok (update_position st1 (cl_x c) (cl_y c), InLock cur).
Proof using Hdiff Hcur Hconf Hpos Hc.
  intros Hid Hge Hlock. unfold update.
  rewrite decide_False by exact Hdiff. simpl. rewrite Hcur.
  rewrite decide_False by (apply not_moved_too_far; assumption).
  rewrite decide_False by exact Hid. rewrite Hconf.
  rewrite decide_False by lra.
  rewrite decide_True by exact Hlock. reflexivity.
Qed.

Lemma update_started :
  cl_id c <> cur ->
  cl_conf c >= cur_conf + CONFIDENCE_MARGIN ->
  lock_countdown st = 0%nat ->
  nt_id (new_target st) <> Some (cl_id c) ->
  update st c frame_diff scene_change_threshold max_movement
  = Ok (set_new_target st1
          {| nt_id := Some (cl_id c);
             nt_confidence := Some (cl_conf c);
             nt_frames := 1 |},
        CandidateStarted (cl_id c)).
Proof using Hdiff Hcur Hconf Hpos Hc.
  intros Hid Hge Hlock Hnt. unfold update.
  rewrite decide_False by exact Hdiff. simpl. rewrite Hcur.
  rewrite decide_False by (apply not_moved_too_far; assumption).
  rewrite decide_False by exact Hid. rewrite Hconf.
  rewrite decide_False by lra.
  rewrite decide_False by lia.
  destruct (nt_id (new_target st)) as [pending_id|]; [|reflexivity].
  rewrite decide_True by congruence. reflexivity.
Qed.

Variable nt_conf : R.
Let new_x : R :=
  (nt_conf * cl_x c + cur_conf * fst (position st)) / (nt_conf + cur_conf).
Let new_y : R :=
  (nt_conf * cl_y c + cur_conf * snd (position st)) / (nt_conf + cur_conf).

Lemma update_buffering :
  cl_id c <> cur ->
  cl_conf c >= cur_conf + CONFIDENCE_MARGIN ->
  lock_countdown st = 0%nat ->
  nt_id (new_target st) = Some (cl_id c) ->
  nt_confidence (new_target st) = Some nt_conf ->
  nt_conf + cur_conf <> 0 ->
  (nt_frames (new_target st) + 1 < wait_frames)%nat ->
  update st c frame_diff scene_change_threshold max_movement
  = Ok (set_new_target (update_position st1 new_x new_y)
          {| nt_id := Some (cl_id c);
             nt_confidence := Some nt_conf;
             nt_frames := nt_frames (new_target st) + 1 |},
        Buffering (cl_id c) (nt_frames (new_target st) + 1)).
Proof using Hdiff Hcur Hconf Hpos Hc.
  intros Hid Hge Hlock Hnt Hntc Hsum Hfr. unfold update.
  rewrite decide_False by exact Hdiff. simpl. rewrite Hcur.
  rewrite decide_False by (apply not_moved_too_far; assumption).
  rewrite decide_False by exact Hid. rewrite Hconf.
  rewrite decide_False by lra.
  rewrite decide_False by lia.
  rewrite Hnt. rewrite (decide_False (P := _ <> _)) by tauto.
  rewrite Hntc. unfold Py.div. rewrite !decide_False by exact Hsum.
  simpl. rewrite decide_False by lia. reflexivity.
Qed.

Lemma update_switched :
  cl_id c <> cur ->
  cl_conf c >= cur_conf + CONFIDENCE_MARGIN ->
  lock_countdown st = 0%nat ->
  nt_id (new_target st) = Some (cl_id c) ->
  nt_confidence (new_target st) = Some nt_conf ->
  nt_conf + cur_conf <> 0 ->
  (nt_frames (new_target st) + 1 >= wait_frames)%nat ->
  update st c frame_diff scene_change_threshold max_movement
  = Ok ({| current_id := Some (cl_id c);
           current_confidence := Some nt_conf;
           position := (nt_conf * cl_x c + (1 - nt_conf) * new_x,
                        nt_conf * cl_y c + (1 - nt_conf) * new_y);
           lost_frames := lost_frames st + 1;
           lock_countdown := lock_frames;
           new_target := {| nt_id := None;
                            nt_confidence := Some nt_conf;
                            nt_frames := 0 |} |},
        Switched (cl_id c)).
Proof using Hdiff Hcur Hconf Hpos Hc.
  intros Hid Hge Hlock Hnt Hntc Hsum Hfr. unfold update.
  rewrite decide_False by exact Hdiff. simpl. rewrite Hcur.
  rewrite decide_False by (apply not_moved_too_far; assumption).
  rewrite decide_False by exact Hid. rewrite Hconf.
  rewrite decide_False by lra.
  rewrite decide_False by lia.
  rewrite Hnt. rewrite (decide_False (P := _ <> _)) by tauto.
  rewrite Hntc. unfold Py.div. rewrite !decide_False by exact Hsum.
  simpl. rewrite decide_True by lia. reflexivity.
Qed.

End Branches.

(** *** Streams of frames *)

Lemma run_app (st : State) (l1 l2 : list (option Cluster * R)) :
  run st (l1 ++ l2) = (let* st1 := run st l1 in run st1 l2).
Proof.
  revert st. induction l1 as [|[cand d] l1 IH]; intros st; simpl; [reflexivity|].
  destruct (track st cand d) as [[st1 s]|e]; simpl; [apply IH|reflexivity].
Qed.

Lemma run_snoc (st stk st' : State) (l : list (option Cluster * R))
    (f : option Cluster * R) (s : Status) :
  run st l = Ok stk ->
  track stk (fst f) (snd f) = Ok (st', s) ->
  run st (l ++ [f]) = Ok st'.
Proof.
  intros Hl Hf. rewrite run_app, Hl. simpl. destruct f as [cand d].
  simpl in Hf. rewrite Hf. reflexivity.
Qed.

Lemma run_cons (st st1 : State) (cand : option Cluster) (d : R) (s : Status)
    (rest : list (option Cluster * R)) :
  track st cand d = Ok (st1, s) ->
  run st ((cand, d) :: rest) = run st1 rest.
Proof. intros H. simpl. rewrite H. reflexivity. Qed.




(** *** Candidate-pending runs *)

Section Rival.
Variables (cur : nat) (cur_conf : R) (rid : nat).
Hypothesis Hconf0 : 0 <= cur_conf.
Hypothesis Hrid : rid <> cur.

(** A frame whose best cluster is the rival [rid], strong enough to
    contest the current subject, with no scene cut. *)
Definition rival_frame (f : option Cluster * R) : Prop :=
  exists c, fst f = Some c /\ cl_id c = rid /\
            cl_conf c >= cur_conf + CONFIDENCE_MARGIN /\
            normalized c /\ ~ snd f > scene_change_threshold.

(** The tracker follows [cur], is not in lock, and has no pending
    count for [rid]. *)
Definition settled (st : State) : Prop :=
  current_id st = Some cur /\ current_confidence st = Some cur_conf /\
  lock_countdown st = 0%nat /\ unit_square (position st) /\
  nt_id (new_target st) <> Some rid.

(** The tracker follows [cur] and has counted [k] frames of [rid]. *)
Definition pending (nc : R) (k : nat) (st : State) : Prop :=
  current_id st = Some cur /\ current_confidence st = Some cur_conf /\
  lock_countdown st = 0%nat /\ unit_square (position st) /\
  new_target st = {| nt_id := Some rid; nt_confidence := Some nc;
                     nt_frames := k |} /\
  nc >= cur_conf + CONFIDENCE_MARGIN.

Lemma margin_pos : 0 < CONFIDENCE_MARGIN.
Proof. unfold CONFIDENCE_MARGIN. lra. Qed.

Lemma track_settled (st : State) (f : option Cluster * R) :
  settled st -> rival_frame f ->
  exists st' c,
    fst f = Some c /\
    track st (fst f) (snd f) = Ok (st', CandidateStarted rid)
    /\ pending (cl_conf c) 1 st'.
Proof using Hrid.
  intros (Hcur & Hcc & Hlock & Hpos & Hnt) (c & Hf & Hid & Hge & Hc & Hd).
  rewrite Hf. simpl.
  eexists _, c. split; [reflexivity|]. split.
  - rewrite (update_started st c (snd f) cur cur_conf); try assumption.
    + rewrite Hid. reflexivity.
    + rewrite Hid. exact Hrid.
    + rewrite Hid. exact Hnt.
  - repeat split; simpl; try assumption; try apply Hpos.
Qed.

Lemma blend_unit_square (st : State) (c : Cluster) (nc : R) :
  unit_square (position st) -> normalized c ->
  nc >= cur_conf + CONFIDENCE_MARGIN ->
  unit_square
    ((nc * cl_x c + cur_conf * fst (position st)) / (nc + cur_conf),
     (nc * cl_y c + cur_conf * snd (position st)) / (nc + cur_conf)).
Proof using Hconf0.
  intros [Hpx Hpy] [Hx Hy] Hnc. pose proof margin_pos. simpl in Hx, Hy.
  split; simpl; apply weighted_mean_unit; try assumption; lra.
Qed.

Lemma track_pending (st : State) (f : option Cluster * R) (nc : R) (k : nat) :
  pending nc k st -> rival_frame f -> (k + 1 < wait_frames)%nat ->
  exists st',
    track st (fst f) (snd f) = Ok (st', Buffering rid (k + 1))
    /\ pending nc (k + 1) st'.
Proof using Hrid Hconf0.
  intros (Hcur & Hcc & Hlock & Hpos & Hnt & Hnc)
         (c & Hf & Hid & Hge & Hc & Hd) Hk.
  pose proof margin_pos.
  rewrite Hf. simpl. eexists. split.
  - rewrite (update_buffering st c (snd f) cur cur_conf) with (nt_conf := nc);
      try assumption; rewrite ?Hnt; simpl; try lra; try congruence.
    rewrite Hid. reflexivity.
  - repeat split; simpl; try assumption;
      try apply (blend_unit_square st c nc Hpos Hc Hnc).
    all: rewrite Hid; reflexivity.
Qed.

Lemma track_commit (st : State) (f : option Cluster * R) (nc : R) (k : nat) :
  pending nc k st -> rival_frame f -> (k + 1 >= wait_frames)%nat ->
  exists st',
    track st (fst f) (snd f) = Ok (st', Switched rid)
    /\ current_id st' = Some rid
    /\ current_confidence st' = Some nc
    /\ lock_countdown st' = lock_frames
    /\ nt_id (new_target st') = None
    /\ nt_frames (new_target st') = 0%nat
    /\ (nc <= 1 -> unit_square (position st')).
Proof using Hrid Hconf0.
  intros (Hcur & Hcc & Hlock & Hpos & Hnt & Hnc)
         (c & Hf & Hid & Hge & Hc & Hd) Hk.
  pose proof margin_pos.
  rewrite Hf. simpl. eexists. split.
  - rewrite (update_switched st c (snd f) cur cur_conf) with (nt_conf := nc);
      try assumption; rewrite ?Hnt; simpl; try lra; try congruence.
    rewrite Hid. reflexivity.
  - simpl. repeat (split; [reflexivity|]). intros Hle.
    destruct (blend_unit_square st c nc Hpos Hc Hnc) as [Hbx Hby].
    destruct Hc as [Hx Hy]. simpl in Hbx, Hby, Hx, Hy.
    split; simpl; nra.
Qed.

(** After [k] rival frames ([1 <= k < wait_frames]) the switch is
    still pending with count [k]; the pending confidence is the one of
    the first rival frame. *)
Lemma run_pending (st : State) (frames : list (option Cluster * R)) (k : nat) :
  settled st -> Forall rival_frame frames ->
  (1 <= k < wait_frames)%nat -> (k <= length frames)%nat ->
  exists stk f0 c0,
    frames !! 0%nat = Some f0 /\ fst f0 = Some c0 /\
    run st (take k frames) = Ok stk /\ pending (cl_conf c0) k stk.
Proof using Hrid Hconf0.
  intros Hst Hall. induction k as [|k IH]; intros Hk Hlen; [lia|].
  destruct (lookup_lt_is_Some_2 frames k) as [f Hf]; [lia|].
  assert (Hrf : rival_frame f)
    by (eapply Forall_lookup_1; eassumption).
  rewrite (take_S_r _ _ _ Hf).
  destruct (decide (k = 0)%nat) as [->|Hk0].
  - destruct (track_settled st f Hst Hrf) as (st' & c & Hc & Htr & Hp).
    exists st', f, c.
    split; [exact Hf|]. split; [exact Hc|]. split; [|exact Hp].
    eapply run_snoc; [reflexivity|exact Htr].
  - destruct IH as (stk & f0 & c0 & Hf0 & Hc0 & Hrun & Hp); [lia|lia|].
    destruct (track_pending stk f (cl_conf c0) k Hp Hrf)
      as (st' & Htr & Hp'); [lia|].
    exists st', f0, c0.
    split; [exact Hf0|]. split; [exact Hc0|]. split.
    + eapply run_snoc; eassumption.
    + replace (S k) with (k + 1)%nat by lia. exact Hp'.
Qed.

(** The frame that completes [wait_frames] rival frames commits the
    switch. *)
Lemma run_commit (st : State) (frames : list (option Cluster * R)) :
  settled st -> Forall rival_frame frames ->
  length frames = wait_frames ->
  exists stp f0 c0 f st',
    frames !! 0%nat = Some f0 /\ fst f0 = Some c0 /\
    run st (take (wait_frames - 1) frames) = Ok stp /\
    frames !! (wait_frames - 1)%nat = Some f /\
    track stp (fst f) (snd f) = Ok (st', Switched rid) /\
    run st frames = Ok st' /\
    current_id st' = Some rid /\
    current_confidence st' = Some (cl_conf c0) /\
    lock_countdown st' = lock_frames /\
    nt_id (new_target st') = None /\
    nt_frames (new_target st') = 0%nat /\
    (cl_conf c0 <= 1 -> unit_square (position st')).
Proof using Hrid Hconf0.
  intros Hst Hall Hlen.
  destruct (run_pending st frames (wait_frames - 1) Hst Hall)
    as (stp & f0 & c0 & Hf0 & Hc0 & Hrun & Hp);
    [unfold wait_frames; lia | lia |].
  destruct (lookup_lt_is_Some_2 frames (wait_frames - 1)) as [f Hf];
    [unfold wait_frames in *; lia|].
  assert (Hrf : rival_frame f) by (eapply Forall_lookup_1; eassumption).
  destruct (track_commit stp f (cl_conf c0) (wait_frames - 1) Hp Hrf)
    as (st' & Htr & Hid & Hcc & Hlock & Hnt & Hfr & Hsq);
    [unfold wait_frames; lia|].
  exists stp, f0, c0, f, st'.
  repeat (split; [assumption|]).
  split; [|repeat (split; [assumption|]); assumption].
  rewrite <- (take_ge frames wait_frames) by lia.
  replace wait_frames with (S (wait_frames - 1)) at 1
    by (unfold wait_frames; lia).
  rewrite (take_S_r _ _ _ Hf). eapply run_snoc; eassumption.
Qed.

(** *** Rival frames separated by frames without candidate

    [handle_no_detection] (lines 355-364) does not touch [new_target]:
    a frame without candidate holds the pending count. *)







End Rival.

(** *** Following runs *)

(** [n] frames on which the best cluster is [c], the subject being
    followed: every frame counts in [lost_frames], and [lock_countdown]
    stays as it was. *)
Lemma run_following (c : Cluster) (d : R) (n : nat) (st : State) :
  current_id st = Some (cl_id c) ->
  unit_square (position st) -> normalized c ->
  ~ d > scene_change_threshold ->
  nt_id (new_target st) = None -> nt_frames (new_target st) = 0%nat ->
  exists st',
    run st (repeat (Some c, d) n) = Ok st'
    /\ current_id st' = Some (cl_id c)
    /\ current_confidence st'
       = match n with O => current_confidence st | S _ => Some (cl_conf c) end
    /\ unit_square (position st')
    /\ lost_frames st' = (lost_frames st + n)%nat
    /\ lock_countdown st' = lock_countdown st
    /\ nt_id (new_target st') = None
    /\ nt_frames (new_target st') = 0%nat.
Proof.
  intros Hcur Hpos Hc Hd. revert st Hcur Hpos.
  induction n as [|n IH]; intros st Hcur Hpos Hnt Hfr.
  - exists st. simpl. repeat split; try assumption; try apply Hpos. lia.
  - simpl.
    rewrite (update_following st c d (cl_id c) Hd Hcur Hpos Hc eq_refl).
    simpl.
    lazymatch goal with |- context [run ?s _] => specialize (IH s) end.
    destruct IH as (st' & Hrun & Hid & Hcc & Hsq & Hlost & Hlock & Hnt' & Hfr');
      try reflexivity; try exact Hc; try exact Hcur.
    exists st'. split; [exact Hrun|]. split; [exact Hid|].
    split; [destruct n; [rewrite Hcc; reflexivity | exact Hcc]|].
    split; [exact Hsq|]. split; [simpl in Hlost; lia|].
    split; [exact Hlock|]. split; assumption.
Qed.

(** *** Concrete frames *)

(** The tracker after its first frame, on [centre_person]. *)
Definition on_centre_person : State :=
  {| current_id := Some 0%nat;
     current_confidence := Some (1 / 2);
     position := (1 / 2, 1 / 2);
     lost_frames := 1;
     lock_countdown := 0;
     new_target := {| nt_id := None; nt_confidence := None; nt_frames := 0 |} |}.

Lemma track_init_centre_person :
  track init (Some centre_person) 0 = Ok (on_centre_person, Initializing 0).
Proof.
  simpl. unfold update.
  rewrite decide_False by (unfold scene_change_threshold; lra).
  reflexivity.
Qed.

Lemma on_centre_person_settled : settled 0 (1 / 2) 1 on_centre_person.
Proof.
  unfold settled, unit_square; simpl. repeat split; try lra. discriminate.
Qed.

Lemma rival_person_frame : rival_frame (1 / 2) 1 (Some rival_person, 0).
Proof.
  exists rival_person.
  unfold CONFIDENCE_MARGIN, scene_change_threshold, normalized, unit_square.
  simpl. repeat split; lra.
Qed.

(** A candidate in a corner of the frame, away from the tracker position
    of [on_centre_person]. *)
Definition corner_person : Cluster := mkCluster 1 1 0 (9 / 10).

Lemma corner_person_normalized : normalized corner_person.
Proof. unfold normalized, unit_square; simpl; lra. Qed.

Lemma on_centre_person_unit_square : unit_square (position on_centre_person).
Proof. unfold unit_square; simpl; lra. Qed.

Lemma corner_person_away :
  0 < distance (fst (get_position on_centre_person))
        (snd (get_position on_centre_person))
        (cl_x corner_person) (cl_y corner_person).
Proof.
  unfold distance, Py.math_sqrt. simpl. apply sqrt_lt_R0. lra.
Qed.

Lemma moved_too_far_unreachable_witness :
  current_id on_centre_person = Some 0%nat
  /\ unit_square (position on_centre_person)
  /\ normalized corner_person
  /\ 0 < distance (fst (get_position on_centre_person))
            (snd (get_position on_centre_person))
            (cl_x corner_person) (cl_y corner_person)
  /\ (distance (fst (get_position on_centre_person))
        (snd (get_position on_centre_person))
        (cl_x corner_person) (cl_y corner_person) <= sqrt 2
      /\ forall st' id,
           update on_centre_person corner_person 0
             scene_change_threshold max_movement
           <> Ok (st', MovedTooFar id)).
Proof.
  split; [reflexivity|].
  split; [exact on_centre_person_unit_square|].
  split; [exact corner_person_normalized|].
  split; [exact corner_person_away|].
  exact (moved_too_far_unreachable on_centre_person corner_person 0
           on_centre_person_unit_square corner_person_normalized).
Defined.










(** C2. [update] also counts its frame in [lost_frames] (line 300) and
    nothing but [reset] clears the counter: once [centre_person] has
    been the candidate on 29 or more consecutive frames, the first frame
    without a candidate resets the tracker to the default centre. *)
Theorem one_lost_frame_resets (n : nat) :
  exists st,
    run init (repeat (Some centre_person, 0) (29 + n)) = Ok st
    /\ current_id st = Some 0%nat
    /\ lost_frames st = (29 + n)%nat
    /\ track st None 0 = Ok (init, LostReset).
Proof.
  change (29 + n)%nat with (S (28 + n)) at 1.
  cbn [repeat]. rewrite (run_cons _ _ _ _ _ _ track_init_centre_person).
  assert (Hd : ~ 0 > scene_change_threshold)
    by (unfold scene_change_threshold; lra).
  destruct (run_following centre_person 0 (28 + n) on_centre_person)
    as (st & Hrun & Hid & _ & _ & Hlost & _);
    try reflexivity; try exact Hd.
  { apply on_centre_person_settled. }
  { apply centre_person_normalized. }
  exists st. split; [exact Hrun|]. split; [exact Hid|].
  simpl in Hlost. split; [lia|].
  simpl. unfold handle_no_detection.
  rewrite decide_False by exact Hd. simpl.
  rewrite decide_False by (unfold wait_frames; lia). reflexivity.
Qed.

(** The subject switched to, seen again with a lower confidence, and the
    former subject coming back as a strong rival. *)
Definition rival_followed : Cluster := mkCluster 1 (1 / 2) (1 / 2) (1 / 2).
Definition challenger : Cluster := mkCluster 0 (1 / 2) (1 / 2) (9 / 10).

(** C1. [lock_countdown] is set to [lock_frames] by a committed switch
    and is never decremented: after the switch to [rival_person], however
    many frames (45 and more) the new subject is followed, a strong rival
    is still answered "In lock" and starts no pending count. *)
Theorem lock_never_expires (n : nat) :
  exists st st',
    run init ((Some centre_person, 0)
              :: repeat (Some rival_person, 0) 30
              ++ repeat (Some rival_followed, 0) (45 + n)) = Ok st
    /\ current_id st = Some 1%nat
    /\ lock_countdown st = lock_frames
    /\ track st (Some challenger) 0 = Ok (st', InLock 1)
    /\ lock_countdown st' = lock_frames
    /\ nt_id (new_target st') = None
    /\ nt_frames (new_target st') = 0%nat.
Proof.
  assert (Hd : ~ 0 > scene_change_threshold)
    by (unfold scene_change_threshold; lra).
  rewrite (run_cons _ _ _ _ _ _ track_init_centre_person), run_app.
  destruct (run_commit 0%nat (1 / 2) 1%nat) with
      (st := on_centre_person) (frames := repeat (Some rival_person, 0) 30)
    as (_ & f0 & c0 & _ & st30 & Hf0 & Hc0 & _ & _ & _ & Hrun & Hid & Hcc
        & Hlock & Hnt & Hfr & Hsq);
    try lra; try lia; try reflexivity.
  { apply on_centre_person_settled. }
  { apply Forall_forall. intros f Hin. apply list_elem_of_In in Hin.
    apply repeat_spec in Hin. subst f. apply rival_person_frame. }
  rewrite Hrun. cbn [Py.bind].
  simpl in Hf0. injection Hf0 as <-. simpl in Hc0. injection Hc0 as <-.
  assert (Hsq' : unit_square (position st30)) by (apply Hsq; simpl; lra).
  destruct (run_following rival_followed 0 (45 + n) st30)
    as (st & Hrun' & Hid' & Hcc' & Hsq'' & _ & Hlock' & Hnt' & Hfr');
    try assumption.
  { unfold normalized, unit_square; simpl; lra. }
  eexists st, _. split; [exact Hrun'|]. split; [exact Hid'|].
  split; [congruence|]. split.
  - simpl.
    apply (update_in_lock st challenger 0 1%nat (1 / 2));
      try assumption.
    + unfold normalized, unit_square; simpl; lra.
    + simpl; lia.
    + unfold CONFIDENCE_MARGIN; simpl; lra.
    + rewrite Hlock', Hlock. unfold lock_frames. lia.
  - simpl. rewrite Hlock', Hlock, Hnt', Hfr'. auto.
Qed.

End TrackerProofs.

(* ===================================================================== *)
(** ** Properties of the first pass *)
(* ===================================================================== *)

Module PlannerProofs.
Import Planner.

(** Settles the tests on reals that linear arithmetic decides. *)
Ltac decide_lra :=
  repeat match goal with
    | |- context [decide ?P] =>
        first [ rewrite (decide_True (P := P)) by lra
              | rewrite (decide_False (P := P)) by lra ]
    end.

(** *** The three transitions of [plan_movement] *)

Lemma plan_movement_cut (pl : State) (n : nat) (cluster : option Cluster)
    (d thr : R) :
  d > thr ->
  plan_movement pl n cluster d thr
  = {| frame_data :=
         frame_data pl
         ++ [{| fr_num := n; fr_x := default_x; fr_scene := true |}];
       current_scene_start := n;
       waiting_for_detection := true;
       position_history := [];
       in_transition := false;
       stable_frames := 0;
       stable_frames_required := stable_frames_required pl;
       is_centering := false |}.
Proof. intros H. unfold plan_movement. rewrite decide_True by exact H. reflexivity. Qed.

Lemma plan_movement_backfill (pl : State) (n : nat) (c : Cluster) (d thr : R) :
  ~ d > thr -> waiting_for_detection pl = true ->
  plan_movement pl n (Some c) d thr
  = {| frame_data :=
         backfill (current_scene_start pl) (cl_x c) <$> frame_data pl;
       current_scene_start := current_scene_start pl;
       waiting_for_detection := false;
       position_history := position_history pl;
       in_transition := in_transition pl;
       stable_frames := stable_frames pl;
       stable_frames_required := stable_frames_required pl;
       is_centering := is_centering pl |}.
Proof.
  intros H Hw. unfold plan_movement. rewrite decide_False by exact H.
  rewrite Hw. reflexivity.
Qed.

(** The normal update appends one record for the frame and leaves the
    earlier records, the scene start and the waiting flag as they were. *)
Lemma plan_movement_normal (pl : State) (n : nat) (cluster : option Cluster)
    (d thr : R) :
  ~ d > thr ->
  waiting_for_detection pl = false \/ cluster = None ->
  exists x,
    frame_data (plan_movement pl n cluster d thr)
    = frame_data pl ++ [{| fr_num := n; fr_x := x; fr_scene := false |}]
    /\ current_scene_start (plan_movement pl n cluster d thr)
       = current_scene_start pl
    /\ waiting_for_detection (plan_movement pl n cluster d thr)
       = waiting_for_detection pl.
Proof.
  intros H Hn. unfold plan_movement. rewrite decide_False by exact H.
  destruct (waiting_for_detection pl) eqn:Hw, cluster as [c|];
    try (destruct Hn; discriminate).
  all: destruct (last_x_of (frame_data pl)) as [last_x|];
    repeat (case_decide || case_match); simplify_eq;
    eexists; simpl; rewrite ?Hw; repeat split; reflexivity.
Qed.

Lemma backfill_before (scene_start : nat) (new_x : R) (data : list FrameRecord) :
  Forall (fun rec => (fr_num rec < scene_start)%nat) data ->
  backfill scene_start new_x <$> data = data.
Proof.
  induction 1 as [|rec data Hrec _ IH]; [reflexivity|].
  rewrite fmap_cons, IH. unfold backfill.
  rewrite decide_False by lia. reflexivity.
Qed.

(** C7. A scene cut at frame 10, no candidate on frames 11 to 14 and a
    first candidate at frame 15 with x = 0.7: the records of frames 11
    to 14 then hold x = 0.7, and the record of frame 10 stays the scene
    change marker at x = 0.5.  The records of earlier frames are not
    touched. *)
Theorem delayed_detection_backfill (pl : State) (c10 : option Cluster)
    (c15 : Cluster) (d10 d11 d12 d13 d14 d15 : R) :
  Forall (fun rec => (fr_num rec < 10)%nat) (frame_data pl) ->
  d10 > scene_change_threshold ->
  ~ d11 > scene_change_threshold -> ~ d12 > scene_change_threshold ->
  ~ d13 > scene_change_threshold -> ~ d14 > scene_change_threshold ->
  ~ d15 > scene_change_threshold ->
  cl_x c15 = 7 / 10 ->
  frame_data
    (first_pass pl 10
       [(c10, d10); (None, d11); (None, d12); (None, d13); (None, d14);
        (Some c15, d15)])
  = frame_data pl
    ++ [ {| fr_num := 10; fr_x := 1 / 2; fr_scene := true |};
         {| fr_num := 11; fr_x := 7 / 10; fr_scene := false |};
         {| fr_num := 12; fr_x := 7 / 10; fr_scene := false |};
         {| fr_num := 13; fr_x := 7 / 10; fr_scene := false |};
         {| fr_num := 14; fr_x := 7 / 10; fr_scene := false |} ].
Proof.
  intros Hold H10 H11 H12 H13 H14 H15 Hx. cbn [first_pass].
  rewrite (plan_movement_cut pl 10 c10 d10 _ H10).
  set (pl10 := mkState _ _ _ _ _ _ _ _).
  destruct (plan_movement_normal pl10 11 None d11 _ H11 (or_intror eq_refl))
    as (x11 & Hd11 & Hs11 & Hw11).
  set (pl11 := plan_movement pl10 11 None d11 _) in *.
  destruct (plan_movement_normal pl11 12 None d12 _ H12 (or_intror eq_refl))
    as (x12 & Hd12 & Hs12 & Hw12).
  set (pl12 := plan_movement pl11 12 None d12 _) in *.
  destruct (plan_movement_normal pl12 13 None d13 _ H13 (or_intror eq_refl))
    as (x13 & Hd13 & Hs13 & Hw13).
  set (pl13 := plan_movement pl12 13 None d13 _) in *.
  destruct (plan_movement_normal pl13 14 None d14 _ H14 (or_intror eq_refl))
    as (x14 & Hd14 & Hs14 & Hw14).
  set (pl14 := plan_movement pl13 14 None d14 _) in *.
  assert (Hw10 : waiting_for_detection pl10 = true) by reflexivity.
  assert (Hs10 : current_scene_start pl10 = 10%nat) by reflexivity.
  assert (Hw : waiting_for_detection pl14 = true) by congruence.
  assert (Hs : current_scene_start pl14 = 10%nat) by congruence.
  rewrite (plan_movement_backfill pl14 15 c15 d15 _ H15 Hw). cbn [frame_data].
  rewrite Hs, Hd14, Hd13, Hd12, Hd11. subst pl10. cbn [frame_data].
  rewrite !fmap_app, (backfill_before 10 (cl_x c15) _ Hold), Hx.
  rewrite <- !app_assoc. f_equal.
Qed.

Lemma delayed_detection_backfill_witness :
  frame_data
    (first_pass (MovementPlanner 30) 10
       [(None, 5000); (None, 0); (None, 0); (None, 0); (None, 0);
        (Some (mkCluster 0 (7 / 10) (1 / 2) (9 / 10)), 0)])
  = [ {| fr_num := 10; fr_x := 1 / 2; fr_scene := true |};
      {| fr_num := 11; fr_x := 7 / 10; fr_scene := false |};
      {| fr_num := 12; fr_x := 7 / 10; fr_scene := false |};
      {| fr_num := 13; fr_x := 7 / 10; fr_scene := false |};
      {| fr_num := 14; fr_x := 7 / 10; fr_scene := false |} ].
Proof.
  apply (delayed_detection_backfill (MovementPlanner 30) None
           (mkCluster 0 (7 / 10) (1 / 2) (9 / 10)) 5000 0 0 0 0 0);
    unfold scene_change_threshold; simpl; try lra; try reflexivity.
  apply Forall_nil_2.
Defined.

Lemma first_pass_app (pl : State) (n : nat)
    (l1 l2 : list (option Cluster * R)) :
  first_pass pl n (l1 ++ l2)
  = first_pass (first_pass pl n l1) (n + length l1) l2.
Proof.
  revert pl n. induction l1 as [|[c d] l1 IH]; intros pl n; simpl.
  - rewrite Nat.add_0_r. reflexivity.
  - rewrite IH. f_equal. lia.
Qed.

(** A candidate at frame 0, a scene cut at frame 1, a candidate again
    at frame 2. *)
Lemma cut_then_candidate (fps : R) (c0 c2 : Cluster) :
  let pl := first_pass (MovementPlanner fps) 0
              [(Some c0, 0); (None, 5000); (Some c2, 0)] in
  frame_data pl
  = [ {| fr_num := 0; fr_x := cl_x c0; fr_scene := false |};
      {| fr_num := 1; fr_x := 1 / 2; fr_scene := true |} ]
  /\ waiting_for_detection pl = false.
Proof.
  assert (H0 : ~ 0 > scene_change_threshold)
    by (unfold scene_change_threshold; lra).
  assert (H1 : 5000 > scene_change_threshold)
    by (unfold scene_change_threshold; lra).
  cbn [first_pass].
  set (pl0 := plan_movement (MovementPlanner fps) 0 (Some c0) 0 _).
  assert (Hd0 : frame_data pl0
                = [{| fr_num := 0; fr_x := cl_x c0; fr_scene := false |}]).
  { subst pl0. unfold plan_movement. rewrite decide_False by exact H0.
    reflexivity. }
  rewrite (plan_movement_cut pl0 1 None 5000 _ H1).
  rewrite plan_movement_backfill by (exact H0 || reflexivity).
  cbn [frame_data current_scene_start waiting_for_detection].
  split; [|reflexivity]. rewrite Hd0. cbn.
  unfold backfill. cbn [fr_num fr_scene].
  rewrite decide_False by lia. rewrite decide_True by lia. reflexivity.
Qed.

(** C8. The call that meets the first candidate after a scene cut
    rewrites earlier records and returns without appending one (line
    156): three calls, for frames 0, 1 and 2, leave two records, and
    frame 2 has none. *)
Theorem backfill_call_appends_nothing (fps : R) (c0 c2 : Cluster) :
  frame_data
    (first_pass (MovementPlanner fps) 0
       [(Some c0, 0); (None, 5000); (Some c2, 0)])
  = [ {| fr_num := 0; fr_x := cl_x c0; fr_scene := false |};
      {| fr_num := 1; fr_x := 1 / 2; fr_scene := true |} ].
Proof. exact (proj1 (cut_then_candidate fps c0 c2)). Qed.

(** A candidate far below the last position ([fast_transition_threshold]
    or more): the step is limited to [max_movement_per_frame]. *)
Lemma plan_movement_far_below (pl : State) (n : nat) (c : Cluster)
    (d last_x : R) :
  ~ d > scene_change_threshold ->
  waiting_for_detection pl = false ->
  last_x_of (frame_data pl) = Some last_x ->
  last_x - cl_x c >= fast_transition_threshold ->
  frame_data (plan_movement pl n (Some c) d scene_change_threshold)
  = frame_data pl
    ++ [{| fr_num := n; fr_x := last_x + - max_movement_per_frame;
           fr_scene := false |}].
Proof.
  unfold fast_transition_threshold. intros Hd Hw Hlast Hfar.
  unfold plan_movement. rewrite decide_False by exact Hd.
  rewrite Hw, Hlast. unfold Py.abs.
  rewrite (Rabs_left (cl_x c - last_x)) by lra.
  unfold max_movement_per_frame, fast_transition_threshold.
  decide_lra. reflexivity.
Qed.

(** *** A candidate that stays at [p] *)

Section Steady.
Variable p : R.

(** A frame whose best cluster sits at [p], with no scene cut. *)
Definition steady_frame (f : option Cluster * R) : Prop :=
  (exists c, fst f = Some c /\ cl_x c = p)
  /\ ~ snd f > scene_change_threshold.

(** After [n] such frames: one record per frame, all at [p]. *)
Definition steady (n : nat) (pl : State) : Prop :=
  frame_data pl
  = (fun k => {| fr_num := k; fr_x := p; fr_scene := false |}) <$> seq 0 n
  /\ waiting_for_detection pl = false
  /\ Forall (eq p) (position_history pl).

Lemma py_sum_steady (l : list R) :
  Forall (eq p) l -> py_sum l = INR (length l) * p.
Proof.
  unfold py_sum. intros Hl.
  enough (H : forall a, fold_left Rplus l a = a + INR (length l) * p)
    by (rewrite H; lra).
  induction Hl as [|x l <- _ IH]; intros a.
  - simpl. lra.
  - cbn [fold_left]. rewrite IH. cbn [length]. rewrite S_INR. lra.
Qed.

Lemma mean_steady (l : list R) :
  Forall (eq p) l -> (length l > 1)%nat ->
  py_sum l / INR (length l) = p.
Proof.
  intros Hl Hlen. rewrite (py_sum_steady l Hl).
  assert (0 < INR (length l)) by (apply lt_0_INR; lia).
  field. lra.
Qed.

Lemma last_x_of_steady (n : nat) :
  last_x_of
    ((fun k => {| fr_num := k; fr_x := p; fr_scene := false |})
       <$> seq 0 (S n))
  = Some p.
Proof.
  unfold last_x_of. rewrite seq_S, fmap_app. cbn [fmap list_fmap].
  rewrite last_snoc. reflexivity.
Qed.

Lemma plan_movement_steady (pl : State) (n : nat) (f : option Cluster * R) :
  steady n pl -> steady_frame f ->
  steady (S n) (plan_movement pl n (fst f) (snd f) scene_change_threshold).
Proof.
  intros (Hdata & Hw & Hhist) [(c & Hf & Hx) Hd].
  unfold plan_movement. rewrite decide_False by exact Hd.
  rewrite Hw, Hf, Hx, Hdata.
  destruct n as [|n].
  - cbn [seq fmap list_fmap last_x_of last]. unfold steady. simpl.
    auto.
  - rewrite last_x_of_steady. unfold Py.abs.
    replace (p - p) with 0 by lra. rewrite Rabs_R0.
    unfold max_movement_per_frame, fast_transition_threshold.
    rewrite (decide_False (P := 0 > 3 / 100)) by lra.
    rewrite (decide_True (P := 0 < 1 / 10)) by lra.
    assert (Hsnoc : Forall (eq p) (position_history pl ++ [p]))
      by (apply Forall_app; split; [exact Hhist|repeat constructor]).
    assert (Hdrop : Forall (eq p) (drop 1 (position_history pl ++ [p])))
      by (apply Forall_drop; exact Hsnoc).
    assert (Hblend : forall l, Forall (eq p) l -> (length l > 1)%nat ->
              p * (1 - centering_weight)
              + py_sum l / INR (length l) * centering_weight = p).
    { intros l Hl Hlen. rewrite (mean_steady l Hl Hlen). lra. }
    unfold steady.
    repeat (case_decide || case_match); simplify_eq; cbn [frame_data
      waiting_for_detection position_history];
      rewrite ?Hblend by assumption;
      (split; [rewrite (seq_S (S n)), fmap_app; reflexivity|]);
      (split; [reflexivity|]); assumption.
Qed.

Lemma first_pass_steady (frames : list (option Cluster * R))
    (pl : State) (n : nat) :
  steady n pl -> Forall steady_frame frames ->
  steady (n + length frames) (first_pass pl n frames).
Proof.
  revert pl n. induction frames as [|[c d] frames IH]; intros pl n Hpl Hall.
  - simpl. rewrite Nat.add_0_r. exact Hpl.
  - apply Forall_cons in Hall as [Hf Hall]. cbn [first_pass length].
    replace (n + S (length frames))%nat with (S n + length frames)%nat by lia.
    apply IH; [|exact Hall].
    exact (plan_movement_steady pl n (c, d) Hpl Hf).
Qed.

Lemma MovementPlanner_steady (fps : R) : steady 0 (MovementPlanner fps).
Proof. unfold steady. simpl. auto. Qed.

End Steady.

End PlannerProofs.

(* ===================================================================== *)
(** ** Properties of the smoothing pass *)
(* ===================================================================== *)

Module SmoothingProofs.
Import Planner PlannerProofs.

(** The frames a segment writes: the frames of its range that have a
    raw position. *)
Definition written (seg : Segment) (f : nat) : Prop :=
  (start_frame seg <= f)%nat /\ (Z.of_nat f <= end_frame seg)%Z
  /\ (f < start_frame seg + length (positions seg))%nat.

Section Frames.
Variables (base_alpha delta_threshold : R) (ps : list R).

(** The inner loop keeps the length of [smoothed_centers] and touches
    no frame but those of the range that have a raw position. *)
Lemma smooth_frames_untouched (m s i : nat) (last_x : R) (sc sc' : list R) :
  smooth_frames base_alpha delta_threshold ps i (seq s m) last_x sc = Ok sc' ->
  length sc' = length sc
  /\ forall f : nat,
       ~ ((s <= f < s + m)%nat /\ (f - s + i < length ps)%nat) ->
       sc' !! f = sc !! f.
Proof.
  revert s i last_x sc. induction m as [|m IH]; intros s i last_x sc; simpl.
  - intros [= <-]. split; reflexivity.
  - destruct (ps !! i) as [target_x|] eqn:Hi.
    + destruct (decide (s < length sc)%nat) as [Hs|Hs]; [|discriminate].
      intros Hrun. apply IH in Hrun as [Hlen Hout].
      rewrite length_insert in Hlen. split; [exact Hlen|].
      intros f Hf. apply lookup_lt_Some in Hi.
      rewrite Hout by lia. apply list_lookup_insert_ne. lia.
    + intros [= <-]. split; reflexivity.
Qed.

End Frames.

Lemma smooth_segment_untouched (ba dt : R) (seg : Segment) (sc sc' : list R) :
  smooth_segment ba dt seg sc = Ok sc' ->
  length sc' = length sc
  /\ forall f : nat, ~ written seg f -> sc' !! f = sc !! f.
Proof.
  unfold smooth_segment, frame_range, written.
  destruct (positions seg) as [|x0 ps] eqn:Hps; [discriminate|].
  intros Hrun. apply smooth_frames_untouched in Hrun as [Hlen Hout].
  split; [exact Hlen|]. intros f Hf. apply Hout. lia.
Qed.

Lemma smooth_segments_untouched (ba dt : R) (segs : list Segment)
    (sc sc' : list R) :
  smooth_segments ba dt segs sc = Ok sc' ->
  length sc' = length sc
  /\ forall f : nat,
       (forall seg, seg ∈ segs -> ~ written seg f) -> sc' !! f = sc !! f.
Proof.
  revert sc. induction segs as [|seg segs IH]; intros sc; simpl.
  - intros [= <-]. split; reflexivity.
  - destruct (smooth_segment ba dt seg sc) as [sc1|e] eqn:Hseg;
      [|discriminate]. simpl.
    intros Hrun. apply IH in Hrun as [Hlen Hout].
    apply smooth_segment_untouched in Hseg as [Hlen1 Hout1].
    split; [congruence|]. intros f Hf.
    rewrite Hout by (intros seg' Hin; apply Hf; right; exact Hin).
    apply Hout1, Hf. left.
Qed.

(** C4, as the code has it.  A frame that no segment writes holds the
    default centre: this covers the frames of a segment's range past the
    end of its raw-position list, which the segment leaves untouched, and
    the frames outside the range of every segment. *)
Theorem unwritten_frames_keep_default (pl : State) (total_frames : nat)
    (ba dt : R) (sc : list R) :
  interpolate_and_smooth pl total_frames ba dt = Ok sc ->
  length sc = total_frames
  /\ forall f : nat,
       (f < total_frames)%nat ->
       (forall seg, seg ∈ get_scene_segments pl -> ~ written seg f) ->
       sc !! f = Some default_x.
Proof.
  unfold interpolate_and_smooth. intros Hrun.
  apply smooth_segments_untouched in Hrun as [Hlen Hout].
  rewrite length_replicate in Hlen. split; [exact Hlen|].
  intros f Hf Hfree. rewrite (Hout f Hfree).
  apply lookup_replicate_2. exact Hf.
Qed.

(** *** A run with a frame past the raw positions *)

Definition left_person : Cluster := mkCluster 0 (1 / 5) (1 / 2) (9 / 10).

(** A candidate at frame 0, a scene cut at frame 1, the candidate back
    on frames 2 and 3. *)
Definition cut_run : State :=
  first_pass (MovementPlanner 30) 0
    ([(Some left_person, 0); (None, 5000); (Some left_person, 0)]
     ++ [(Some left_person, 0)]).

Lemma cut_run_frame_data :
  frame_data cut_run
  = [ {| fr_num := 0; fr_x := 1 / 5; fr_scene := false |};
      {| fr_num := 1; fr_x := 1 / 2; fr_scene := true |};
      {| fr_num := 3; fr_x := 47 / 100; fr_scene := false |} ].
Proof.
  unfold cut_run. rewrite first_pass_app.
  pose proof (cut_then_candidate 30 left_person left_person) as H.
  cbn zeta in H.
  set (pl := first_pass (MovementPlanner 30) 0 [_; _; _]) in *.
  destruct H as [Hd Hw]. cbn [first_pass length Nat.add].
  rewrite (plan_movement_far_below _ 3 left_person 0 (1 / 2)).
  - rewrite Hd. cbn [app]. repeat f_equal.
    unfold max_movement_per_frame. lra.
  - unfold scene_change_threshold. lra.
  - exact Hw.
  - rewrite Hd. reflexivity.
  - unfold fast_transition_threshold. simpl. lra.
Qed.

Lemma cut_run_segments :
  get_scene_segments cut_run
  = [ {| start_frame := 0; end_frame := 0; positions := [1 / 5] |};
      {| start_frame := 1; end_frame := 3;
         positions := [1 / 2; 47 / 100] |} ].
Proof.
  unfold get_scene_segments. rewrite cut_run_frame_data. reflexivity.
Qed.

Lemma smooth_step_hold (ba x : R) : smooth_step ba delta_threshold x x = x.
Proof.
  unfold smooth_step, delta_threshold, Py.abs.
  replace (x - x) with 0 by lra. rewrite Rabs_R0.
  rewrite decide_True by lra. reflexivity.
Qed.

Lemma smooth_step_approach :
  smooth_step base_alpha delta_threshold (1 / 2) (47 / 100) = 49991 / 100000.
Proof.
  unfold smooth_step, base_alpha, delta_threshold, Py.abs, Py.min.
  rewrite (Rabs_left (47 / 100 - 1 / 2)) by lra.
  decide_lra. lra.
Qed.

Lemma cut_run_smoothed :
  interpolate_and_smooth cut_run 4 base_alpha delta_threshold
  = Ok [1 / 5; 1 / 2; 49991 / 100000; 1 / 2].
Proof.
  unfold interpolate_and_smooth. rewrite cut_run_segments.
  cbn [smooth_segments smooth_segment positions replicate].
  unfold frame_range. simpl (seq _ _).
  cbn [smooth_frames lookup list_lookup].
  rewrite !smooth_step_hold.
  rewrite decide_True by (simpl; lia). cbn [Py.bind].
  cbn [smooth_frames lookup list_lookup].
  rewrite ?smooth_step_hold, smooth_step_approach.
  rewrite !decide_True by (simpl; lia). reflexivity.
Qed.

(** The reading of the claim as worded: in every segment, a frame of
    the range past the raw positions holds the value of the last frame
    that has one. *)
Definition left_at_last_smoothed_value (segs : list Segment) (sc : list R)
    : Prop :=
  forall seg f,
    seg ∈ segs ->
    (start_frame seg + length (positions seg) <= f)%nat ->
    (Z.of_nat f <= end_frame seg)%Z ->
    sc !! f = sc !! (start_frame seg + length (positions seg) - 1)%nat.

Lemma cut_run_not_left_at_last_smoothed_value :
  exists sc,
    interpolate_and_smooth cut_run 4 base_alpha delta_threshold = Ok sc
    /\ ~ left_at_last_smoothed_value (get_scene_segments cut_run) sc.
Proof.
  eexists. split; [exact cut_run_smoothed|].
  rewrite cut_run_segments. intros Hclaim.
  specialize (Hclaim {| start_frame := 1; end_frame := 3;
                        positions := [1 / 2; 47 / 100] |} 3%nat).
  cbn in Hclaim.
  assert (H : Some (1 / 2) = Some (49991 / 100000)).
  { apply Hclaim; [|lia|lia]. right. left. }
  injection H as H. lra.
Qed.

Lemma unwritten_frames_keep_default_witness :
  interpolate_and_smooth cut_run 4 base_alpha delta_threshold
  = Ok [1 / 5; 1 / 2; 49991 / 100000; 1 / 2]
  /\ [1 / 5; 1 / 2; 49991 / 100000; 1 / 2] !! 3%nat = Some default_x.
Proof.
  split; [exact cut_run_smoothed|].
  apply (unwritten_frames_keep_default cut_run 4 base_alpha delta_threshold
           _ cut_run_smoothed); [lia|].
  rewrite cut_run_segments. intros seg Hin.
  apply list_elem_of_In in Hin. unfold written.
  destruct Hin as [<-|[<-|[]]]; simpl; lia.
Defined.

(** *** A candidate that stays at [p] *)

Lemma segments_loop_no_scene (data : list FrameRecord) (i : nat)
    (acc : list Segment) (s : nat) (ps : list R) :
  Forall (fun rec => fr_scene rec = false) data ->
  segments_loop data i acc s ps = (acc, s, ps ++ (fr_x <$> data)).
Proof.
  intros Hdata. revert i ps.
  induction Hdata as [|rec data Hrec _ IH]; intros i ps; simpl.
  - rewrite app_nil_r. reflexivity.
  - rewrite Hrec. simpl. rewrite IH, <- app_assoc. reflexivity.
Qed.

Section Steady.
Variable p : R.

Lemma steady_positions (l : list nat) :
  fr_x <$> ((fun k => {| fr_num := k; fr_x := p; fr_scene := false |})
            <$> l)
  = replicate (length l) p.
Proof.
  induction l as [|k l IH]; [reflexivity|].
  rewrite !fmap_cons. cbn [length replicate fr_x]. f_equal. exact IH.
Qed.

Lemma get_scene_segments_steady (n : nat) (pl : State) :
  steady p (S n) pl ->
  get_scene_segments pl
  = [{| start_frame := 0; end_frame := Z.of_nat n;
        positions := replicate (S n) p |}].
Proof.
  intros (Hdata & _ & _). unfold get_scene_segments.
  rewrite Hdata.
  rewrite segments_loop_no_scene
    by (apply Forall_fmap, Forall_forall; intros; reflexivity).
  rewrite steady_positions, length_seq, app_nil_l.
  rewrite seq_S, fmap_app. cbn [fmap list_fmap]. rewrite last_snoc.
  reflexivity.
Qed.

(** On raw positions all at [p], from [last_x = p], the inner loop
    writes [p] to each frame of the range. *)
Lemma smooth_frames_steady (ba : R) (N m s i : nat) (sc : list R) :
  (i + m <= N)%nat -> (s + m <= length sc)%nat ->
  exists sc',
    smooth_frames ba delta_threshold (replicate N p) i (seq s m) p sc
    = Ok sc'
    /\ length sc' = length sc
    /\ forall f : nat,
         sc' !! f
         = if decide (s <= f < s + m)%nat then Some p else sc !! f.
Proof.
  revert s i sc. induction m as [|m IH]; intros s i sc Hi Hs.
  - exists sc. simpl. repeat split. intros f.
    rewrite decide_False by lia. reflexivity.
  - cbn [seq smooth_frames].
    rewrite lookup_replicate_2 by lia. rewrite smooth_step_hold.
    rewrite decide_True by lia.
    destruct (IH (S s) (S i) (<[s := p]> sc)) as (sc' & Hrun & Hlen & Hlook).
    + lia.
    + rewrite length_insert. lia.
    + exists sc'. split; [exact Hrun|].
      rewrite length_insert in Hlen. split; [exact Hlen|].
      intros f. rewrite Hlook.
      destruct (decide (f = s)) as [->|Hne].
      * rewrite decide_False by lia. rewrite decide_True by lia.
        apply list_lookup_insert_eq. lia.
      * rewrite list_lookup_insert_ne by lia.
        destruct (decide (S s <= f < S s + m)%nat);
          [rewrite decide_True by lia | rewrite decide_False by lia];
          reflexivity.
Qed.

End Steady.

(** C5. With no scene cut and the primary candidate at the same
    position [p] on every frame, both passes run to the end and the
    smoothed centre of every processed frame is [p] itself: the distance
    to [p] is zero from the first frame on, so the centres are at [p]
    within any bound proportional to [1 / base_alpha], and none lies
    past [p]. *)
Theorem steady_candidate_centres (fps p : R) (total_frames : nat)
    (frames : list (option Cluster * R)) :
  Forall (steady_frame p) frames ->
  (length frames <= total_frames)%nat ->
  exists sc,
    smoothed_centers_of fps total_frames frames = Ok sc
    /\ length sc = total_frames
    /\ forall k : nat, (k < length frames)%nat -> sc !! k = Some p.
Proof.
  intros Hall Hlen. unfold smoothed_centers_of, interpolate_and_smooth.
  pose proof (first_pass_steady p frames _ 0
                (MovementPlanner_steady p fps) Hall) as Hst.
  cbn [Nat.add] in Hst.
  destruct (length frames) as [|n] eqn:Hn.
  - exists (replicate total_frames default_x).
    destruct Hst as (Hdata & _). unfold get_scene_segments.
    rewrite Hdata. simpl. rewrite length_replicate.
    repeat split. intros k Hk. lia.
  - rewrite (get_scene_segments_steady p n _ Hst).
    cbn [smooth_segments smooth_segment positions replicate].
    unfold frame_range. cbn [start_frame end_frame].
    replace (Z.to_nat (Z.of_nat n + 1 - Z.of_nat 0)) with (S n) by lia.
    change (p :: replicate n p) with (replicate (S n) p).
    destruct (smooth_frames_steady p base_alpha (S n) (S n) 0 0
                (replicate total_frames default_x))
      as (sc & Hrun & Hlen' & Hlook).
    + lia.
    + rewrite length_replicate. lia.
    + exists sc. rewrite Hrun. cbn [Py.bind].
      rewrite length_replicate in Hlen'.
      split; [reflexivity|]. split; [exact Hlen'|].
      intros k Hk. rewrite Hlook. rewrite decide_True by lia. reflexivity.
Qed.

Lemma steady_candidate_centres_witness :
  exists sc,
    smoothed_centers_of 30 3
      [(Some (mkCluster 0 (7 / 10) (1 / 2) (9 / 10)), 0);
       (Some (mkCluster 0 (7 / 10) (1 / 2) (9 / 10)), 0)] = Ok sc
    /\ length sc = 3%nat
    /\ forall k : nat, (k < 2)%nat -> sc !! k = Some (7 / 10).
Proof.
  apply (steady_candidate_centres 30 (7 / 10) 3
           [(Some (mkCluster 0 (7 / 10) (1 / 2) (9 / 10)), 0);
            (Some (mkCluster 0 (7 / 10) (1 / 2) (9 / 10)), 0)]).
  - repeat constructor; try (eexists; split; reflexivity);
      unfold scene_change_threshold; simpl; lra.
  - simpl. lia.
Defined.

End SmoothingProofs.

(* ===================================================================== *)
(** ** Properties of the crop window *)
(* ===================================================================== *)

Module CropProofs.
Import Crop.

Lemma int_between (x : R) (z : Z) :
  0 <= x -> IZR z <= x < IZR z + 1 -> Py.int x = z.
Proof.
  intros Hx Hz. unfold Py.int. rewrite decide_True by exact Hx.
  symmetry. apply Int_part_spec. lra.
Qed.

Lemma int_nonneg (x : R) : 0 <= x -> (0 <= Py.int x)%Z.
Proof.
  intros Hx. unfold Py.int. rewrite decide_True by exact Hx.
  destruct (base_Int_part x) as [Hle Hgt].
  assert (H : IZR (-1) < IZR (Int_part x)) by lra.
  apply lt_IZR in H. lia.
Qed.

Lemma crop_width_nonneg (height : Z) :
  (0 <= height)%Z -> (0 <= crop_width_of height)%Z.
Proof.
  intros Hh. apply int_nonneg. apply IZR_le in Hh.
  unfold ASPECT_RATIO. lra.
Qed.

(** The claim as worded fails when the crop is wider than the source:
    100 columns, 1000 rows, centre 0.5 give the columns 0 to 562. *)
Lemma crop_window_wider_than_source :
  crop_window (1 / 2) 100 1000 = (0%Z, 562%Z) /\ (562 > 100)%Z.
Proof.
  split; [|lia]. unfold crop_window.
  rewrite (int_between (IZR 1000 * ASPECT_RATIO) 562)
    by (unfold ASPECT_RATIO; lra).
  rewrite (int_between (1 / 2 * IZR 100) 50) by lra.
  reflexivity.
Qed.

(** C3, as the code has it.  When the crop width [int(height * 9/16)]
    is at most the source width, the columns returned lie within
    [0, width] and are exactly the crop width apart; when it is larger,
    the window is returned all the same, as wide as the crop width, and
    reaches outside [0, width]. *)
Theorem crop_window_contained (c : R) (width height : Z) :
  0 <= c <= 1 -> (0 < width)%Z -> (0 <= height)%Z ->
  let '(x_start, x_end) := crop_window c width height in
  (x_end - x_start = crop_width_of height)%Z
  /\ ((crop_width_of height <= width)%Z ->
      (0 <= x_start)%Z /\ (x_start <= x_end)%Z /\ (x_end <= width)%Z)
  /\ ((crop_width_of height > width)%Z ->
      (x_start < 0)%Z \/ (x_end > width)%Z).
Proof.
  intros Hc Hw Hh. pose proof (crop_width_nonneg height Hh) as Hcw.
  unfold crop_window. fold (crop_width_of height).
  set (cw := crop_width_of height) in *.
  set (xs := (Py.int (c * IZR width) - cw / 2)%Z).
  repeat case_decide; (split; [lia|]); split; intros; lia.
Qed.

Lemma crop_window_contained_witness :
  crop_window (1 / 2) 1920 1080 = (657%Z, 1264%Z)
  /\ (0 <= 657)%Z /\ (657 <= 1264)%Z /\ (1264 <= 1920)%Z.
Proof.
  assert (Hcw : crop_width_of 1080 = 607%Z)
    by (apply int_between; unfold ASPECT_RATIO; lra).
  assert (Hwin : crop_window (1 / 2) 1920 1080 = (657%Z, 1264%Z)).
  { unfold crop_window. fold (crop_width_of 1080). rewrite Hcw.
    rewrite (int_between (1 / 2 * IZR 1920) 960) by lra. reflexivity. }
  split; [exact Hwin|].
  pose proof (crop_window_contained (1 / 2) 1920 1080) as H.
  rewrite Hwin, Hcw in H.
  apply H; try lra; lia.
Defined.

End CropProofs.

(* ===================================================================== *)
(** ** Properties of cluster_people *)
(* ===================================================================== *)

Module ClusteringProofs.
Import Clustering.

(** The accumulator of a group of detections. *)
Definition acc_of (group : list Person) : Acc :=
  {| sum_x := fold_right Rplus 0 (x_pos <$> group);
     sum_y := fold_right Rplus 0 (y_pos <$> group);
     count := length group;
     max_conf := max_confidence group |}.

Lemma sum_snoc (l : list R) (x : R) :
  fold_right Rplus 0 (l ++ [x]) = fold_right Rplus 0 l + x.
Proof. induction l as [|y l IH]; simpl; [|rewrite IH]; lra. Qed.

Lemma fmap_snoc {A B : Type} (f : A -> B) (l : list A) (x : A) :
  f <$> (l ++ [x]) = (f <$> l) ++ [f x].
Proof. rewrite fmap_app. reflexivity. Qed.

Lemma max_confidence_snoc (group : list Person) (person : Person) :
  group <> [] ->
  max_confidence (group ++ [person])
  = Rmax (max_confidence group) (confidence person).
Proof.
  destruct group as [|q group]; [congruence|]. intros _.
  cbn [app max_confidence]. rewrite fmap_snoc, fold_left_app. reflexivity.
Qed.

Lemma keep_max (m c : R) : (if decide (c > m) then c else m) = Rmax m c.
Proof.
  unfold Rmax. destruct (Rle_dec m c) as [Hle|Hgt].
  - case_decide; lra.
  - rewrite decide_False by lra. reflexivity.
Qed.

(** The largest confidence of a group is the confidence of one of its
    members and bounds them all. *)
Lemma max_confidence_is_max (group : list Person) :
  group <> [] ->
  (exists person, person ∈ group /\ confidence person = max_confidence group)
  /\ forall person, person ∈ group ->
                    confidence person <= max_confidence group.
Proof.
  induction group as [|q group IH] using rev_ind; [congruence|]. intros _.
  destruct group as [|q0 group].
  - simpl. split.
    + exists q. split; [left|reflexivity].
    + intros person Hin. apply list_elem_of_singleton in Hin as ->. lra.
  - rewrite max_confidence_snoc by discriminate.
    destruct IH as [(pm & Hin & Hpm) Hub]; [discriminate|].
    set (g := q0 :: group) in *. split.
    + unfold Rmax. destruct (Rle_dec (max_confidence g) (confidence q)).
      * exists q. split; [|reflexivity]. apply elem_of_app. right. left.
      * exists pm. split; [|exact Hpm]. apply elem_of_app. left. exact Hin.
    + intros person Hin'. apply elem_of_app in Hin' as [Hin'|Hin'].
      * pose proof (Hub person Hin'). pose proof (Rmax_l (max_confidence g)
          (confidence q)). lra.
      * apply list_elem_of_singleton in Hin' as ->. apply Rmax_r.
Qed.

Lemma merge_acc_of (group : list Person) (person : Person) :
  group <> [] ->
  merge (acc_of group) person = acc_of (group ++ [person]).
Proof.
  intros Hne. unfold merge, acc_of. cbn [sum_x sum_y count max_conf].
  rewrite !fmap_snoc, !sum_snoc, length_app, keep_max,
    max_confidence_snoc by exact Hne.
  reflexivity.
Qed.

Lemma count_nonzero (group : list Person) :
  group <> [] -> INR (length group) <> 0.
Proof.
  intros Hne. apply not_0_INR. destruct group; [congruence|discriminate].
Qed.

Lemma distance_to_acc_of (group : list Person) (person : Person) :
  group <> [] ->
  distance_to (acc_of group) person = Ok (centroid_distance group person).
Proof.
  intros Hne. unfold distance_to, Py.div. cbn [sum_x sum_y count acc_of].
  rewrite !decide_False by (apply count_nonzero; exact Hne).
  unfold centroid_distance, centroid, mean, Py.math_sqrt. cbn [fst snd].
  rewrite !length_fmap. reflexivity.
Qed.

Lemma add_to_clusters_refines (threshold : R) (groups : list (list Person))
    (person : Person) :
  Forall (fun g => g <> []) groups ->
  add_to_clusters (acc_of <$> groups) person threshold
  = Ok ((fun gs : list (list Person) => acc_of <$> gs)
        <$> join_first threshold groups person).
Proof.
  induction 1 as [|group groups Hne _ IH]; [reflexivity|].
  rewrite fmap_cons. cbn [add_to_clusters join_first].
  rewrite (distance_to_acc_of group person Hne). cbn [Py.bind].
  case_decide.
  - rewrite (merge_acc_of group person Hne). reflexivity.
  - rewrite IH. cbn [Py.bind].
    destruct (join_first threshold groups person); reflexivity.
Qed.

Lemma join_first_nonempty (threshold : R) (groups groups' : list (list Person))
    (person : Person) :
  Forall (fun g => g <> []) groups ->
  join_first threshold groups person = Some groups' ->
  Forall (fun g => g <> []) groups'.
Proof.
  intros Hall. revert groups'.
  induction Hall as [|group groups Hne Hall IH]; intros groups';
    [discriminate|].
  cbn [join_first]. case_decide.
  - intros [= <-]. constructor; [|exact Hall].
    destruct group; discriminate.
  - destruct (join_first threshold groups person) as [gs|]; [|discriminate].
    intros [= <-]. constructor; [exact Hne|]. apply IH. reflexivity.
Qed.

Lemma place_nonempty (threshold : R) (groups : list (list Person))
    (person : Person) :
  Forall (fun g => g <> []) groups ->
  Forall (fun g => g <> []) (place threshold groups person).
Proof.
  intros Hall. unfold place.
  destruct (join_first threshold groups person) as [gs|] eqn:Hj; simpl.
  - eapply join_first_nonempty; eassumption.
  - apply Forall_app. split; [exact Hall|]. repeat constructor. discriminate.
Qed.

Lemma add_person_refines (threshold : R) (groups : list (list Person))
    (person : Person) :
  Forall (fun g => g <> []) groups ->
  add_person threshold (acc_of <$> groups) person
  = Ok (acc_of <$> place threshold groups person).
Proof.
  intros Hall. unfold add_person, place.
  rewrite (add_to_clusters_refines threshold groups person Hall).
  cbn [Py.bind].
  destruct (join_first threshold groups person) as [gs|]; simpl;
    [reflexivity|].
  rewrite fmap_app. do 2 f_equal. cbn [fmap list_fmap]. f_equal.
  unfold acc_of. cbn [fmap list_fmap fold_right length max_confidence].
  f_equal; lra.
Qed.

Lemma add_people_refines (threshold : R) (people : list Person)
    (groups : list (list Person)) :
  Forall (fun g => g <> []) groups ->
  add_people threshold (acc_of <$> groups) people
  = Ok (acc_of <$> fold_left (place threshold) people groups)
  /\ Forall (fun g => g <> []) (fold_left (place threshold) people groups).
Proof.
  revert groups. induction people as [|person people IH]; intros groups Hall.
  - split; [reflexivity|exact Hall].
  - cbn [add_people fold_left].
    rewrite (add_person_refines threshold groups person Hall). cbn [Py.bind].
    apply IH, place_nonempty, Hall.
Qed.

Lemma merged_people_refines (groups : list (list Person)) (i : nat) :
  Forall (fun g => g <> []) groups ->
  merged_people i (acc_of <$> groups)
  = Ok (imap (fun j => cluster_of (i + j)) groups).
Proof.
  intros Hall. revert i.
  induction Hall as [|group groups Hne _ IH]; intros i; [reflexivity|].
  rewrite fmap_cons. cbn [merged_people imap].
  unfold Py.div. cbn [sum_x sum_y count acc_of].
  rewrite !decide_False by (apply count_nonzero; exact Hne).
  cbn [Py.bind]. rewrite IH. cbn [Py.bind].
  unfold cluster_of at 2, centroid, mean. cbn [fst snd].
  rewrite !length_fmap, Nat.add_0_r. do 2 f_equal.
  apply imap_ext. intros j g _. simpl. f_equal. lia.
Qed.

(** *** First fit is not nearest fit *)

Lemma sqrt_lt_iff (d t : R) : 0 <= d -> 0 < t -> sqrt d < t <-> d < t * t.
Proof.
  intros Hd Ht. rewrite <- (sqrt_square t) at 1 by lra. split.
  - apply sqrt_lt_0_alt.
  - intros H. apply sqrt_lt_1_alt. lra.
Qed.

Lemma distance_to_counted (cluster : Acc) (person : Person) :
  count cluster <> 0%nat ->
  distance_to cluster person
  = Ok (sqrt ((x_pos person - sum_x cluster / INR (count cluster)) ^ 2
              + (y_pos person - sum_y cluster / INR (count cluster)) ^ 2)).
Proof.
  intros Hc. unfold distance_to, Py.div.
  rewrite !decide_False by (apply not_0_INR; exact Hc). reflexivity.
Qed.

(** Three detections on one row, at x = 0.10, 0.16 and 0.14. *)
Definition person_a : Person := mkPerson 0 (1 / 2) (10 / 100) (9 / 10).
Definition person_b : Person := mkPerson 1 (1 / 2) (16 / 100) (8 / 10).
Definition person_c : Person := mkPerson 2 (1 / 2) (14 / 100) (7 / 10).

Definition acc_a : Acc := mkAcc (10 / 100) (1 / 2) 1 (9 / 10).
Definition acc_b : Acc := mkAcc (16 / 100) (1 / 2) 1 (8 / 10).

Lemma clusters_a_b :
  add_people (5 / 100) [] [person_a; person_b] = Ok [acc_a; acc_b].
Proof.
  cbn [add_people]. unfold add_person at 1. cbn [add_to_clusters Py.bind app].
  fold acc_a. unfold add_person. cbn [add_to_clusters].
  rewrite distance_to_counted by discriminate. cbn [Py.bind].
  rewrite decide_False; [reflexivity|].
  rewrite sqrt_lt_iff; simpl; nra.
Qed.

Lemma add_person_c :
  add_person (5 / 100) [acc_a; acc_b] person_c
  = Ok [merge acc_a person_c; acc_b].
Proof.
  unfold add_person. cbn [add_to_clusters].
  rewrite distance_to_counted by discriminate. cbn [Py.bind].
  rewrite decide_True; [reflexivity|].
  rewrite sqrt_lt_iff; simpl; nra.
Qed.

(** The reading of the claim as worded: a detection whose nearest
    cluster centre is closer than the threshold is merged into that
    nearest cluster. *)
Definition merged_into_nearest (threshold : R) (clusters : list Acc)
    (person : Person) (clusters' : list Acc) : Prop :=
  forall (j : nat) (cluster : Acc) (d : R),
    clusters !! j = Some cluster ->
    distance_to cluster person = Ok d ->
    d < threshold ->
    (forall cluster' d',
        cluster' ∈ clusters -> distance_to cluster' person = Ok d' -> d <= d') ->
    clusters' !! j = Some (merge cluster person).

Lemma first_fit_is_not_nearest :
  exists clusters',
    add_people (5 / 100) [] [person_a; person_b] = Ok [acc_a; acc_b]
    /\ add_person (5 / 100) [acc_a; acc_b] person_c = Ok clusters'
    /\ ~ merged_into_nearest (5 / 100) [acc_a; acc_b] person_c clusters'.
Proof.
  eexists. split; [exact clusters_a_b|]. split; [exact add_person_c|].
  intros Hclaim.
  specialize (Hclaim 1%nat acc_b _ eq_refl
                (distance_to_counted acc_b person_c ltac:(discriminate))).
  assert (Hb : [merge acc_a person_c; acc_b] !! 1%nat
               = Some (merge acc_b person_c)).
  { apply Hclaim.
    - rewrite sqrt_lt_iff; simpl; nra.
    - intros cluster' d' Hin Hd'.
      rewrite distance_to_counted in Hd'
        by (apply list_elem_of_In in Hin;
            destruct Hin as [<-|[<-|[]]]; discriminate).
      injection Hd' as <-. apply sqrt_le_1_alt.
      apply list_elem_of_In in Hin.
      destruct Hin as [<-|[<-|[]]]; simpl; nra. }
  cbn in Hb. discriminate Hb.
Qed.

(** C9, as the code has it.  [cluster_people] never raises and returns,
    numbered in order of creation, the groups of the first-fit grouping:
    each detection, in insertion order, joins the first group whose
    centroid is closer than the threshold (0.05 at the call sites), or
    starts a new group; a cluster's position is the mean of its
    detections and its confidence the largest among them.  No detection
    gives no cluster. *)
Theorem cluster_people_first_fit (people : list Person) (threshold : R) :
  cluster_people people threshold
  = Ok (imap cluster_of (first_fit_groups threshold people))
  /\ cluster_people [] threshold = Ok [].
Proof.
  split; [|reflexivity]. unfold cluster_people, first_fit_groups.
  destruct (add_people_refines threshold people []) as [Hrun Hne];
    [constructor|].
  change (@nil Acc) with (acc_of <$> []). rewrite Hrun. cbn [Py.bind].
  rewrite (merged_people_refines _ 0 Hne). reflexivity.
Qed.

End ClusteringProofs.

(* ===================================================================== *)
(** ** Further properties of cluster_people *)
(* ===================================================================== *)

Module ClusteringExtras.
Import Clustering ClusteringProofs.

Lemma cluster_people_groups (people : list Person) (threshold : R) :
  cluster_people people threshold
  = Ok (imap cluster_of (first_fit_groups threshold people))
  /\ Forall (fun g => g <> []) (first_fit_groups threshold people).
Proof.
  unfold cluster_people, first_fit_groups.
  destruct (add_people_refines threshold people []) as [Hrun Hne];
    [constructor|].
  change (@nil Acc) with (acc_of <$> []). rewrite Hrun. cbn [Py.bind].
  rewrite (merged_people_refines _ 0 Hne). split; [reflexivity|exact Hne].
Qed.

Lemma join_first_length (threshold : R) (groups groups' : list (list Person))
    (person : Person) :
  join_first threshold groups person = Some groups' ->
  length groups' = length groups.
Proof.
  revert groups'. induction groups as [|g groups IH]; intros groups';
    cbn [join_first]; [discriminate|].
  case_decide.
  - intros [= <-]. reflexivity.
  - destruct (join_first threshold groups person) as [gs|]; [|discriminate].
    intros [= <-]. cbn [length]. f_equal. apply IH. reflexivity.
Qed.

Lemma join_first_concat (threshold : R) (groups groups' : list (list Person))
    (person : Person) :
  join_first threshold groups person = Some groups' ->
  concat groups' ≡ₚ person :: concat groups.
Proof.
  revert groups'. induction groups as [|g groups IH]; intros groups';
    cbn [join_first]; [discriminate|].
  case_decide.
  - intros [= <-]. cbn [concat]. rewrite <- app_assoc. cbn [app].
    symmetry. apply Permutation_middle.
  - destruct (join_first threshold groups person) as [gs|]; [|discriminate].
    intros [= <-]. cbn [concat]. rewrite (IH gs eq_refl).
    symmetry. apply Permutation_middle.
Qed.

Lemma place_length (threshold : R) (groups : list (list Person))
    (person : Person) :
  (length groups <= length (place threshold groups person)
   <= S (length groups))%nat
  /\ place threshold groups person <> [].
Proof.
  unfold place.
  destruct (join_first threshold groups person) as [gs|] eqn:Hj; simpl.
  - rewrite (join_first_length _ _ _ _ Hj). split; [lia|].
    destruct groups; [discriminate Hj|].
    apply join_first_length in Hj. destruct gs; [discriminate|discriminate].
  - rewrite length_app. simpl. split; [lia|].
    destruct groups; discriminate.
Qed.

Lemma place_concat (threshold : R) (groups : list (list Person))
    (person : Person) :
  concat (place threshold groups person) ≡ₚ person :: concat groups.
Proof.
  unfold place.
  destruct (join_first threshold groups person) as [gs|] eqn:Hj; simpl.
  - apply join_first_concat in Hj. exact Hj.
  - rewrite concat_app. simpl. rewrite ?app_nil_r.
    symmetry. apply Permutation_cons_append.
Qed.

Lemma fold_place_length (threshold : R) (people : list Person)
    (groups : list (list Person)) :
  (length groups <= length (fold_left (place threshold) people groups)
   <= length groups + length people)%nat
  /\ (people <> [] -> fold_left (place threshold) people groups <> []).
Proof.
  revert groups. induction people as [|p people IH]; intros groups.
  - simpl. split; [lia|congruence].
  - cbn [fold_left length].
    destruct (place_length threshold groups p) as [Hlen Hne].
    destruct (IH (place threshold groups p)) as [Hlen' Hne'].
    split; [lia|]. intros _.
    destruct people as [|q people]; [exact Hne|].
    apply Hne'. discriminate.
Qed.

Lemma fold_place_concat (threshold : R) (people : list Person)
    (groups : list (list Person)) :
  concat (fold_left (place threshold) people groups)
  ≡ₚ concat groups ++ people.
Proof.
  revert groups. induction people as [|p people IH]; intros groups.
  - simpl. rewrite app_nil_r. reflexivity.
  - cbn [fold_left]. rewrite IH, place_concat. cbn [app].
    apply Permutation_middle.
Qed.

Lemma imap_cluster_of_ids (groups : list (list Person)) (i : nat) :
  cl_id <$> imap (fun j => cluster_of (i + j)) groups
  = seq i (length groups).
Proof.
  revert i. induction groups as [|g groups IH]; intros i; [reflexivity|].
  cbn [imap fmap list_fmap length seq cluster_of cl_id].
  rewrite Nat.add_0_r. f_equal.
  rewrite <- (IH (S i)). f_equal. apply imap_ext. intros j x _.
  simpl. f_equal. lia.
Qed.

(** X1. On detections with normalized coordinates (where the squares
    of line 91 stay between 0 and 1) [cluster_people] does not raise; its
    clusters are numbered 0, 1, 2, ... in order, there are at most as
    many of them as detections, and there is none exactly when there is
    no detection. *)
Theorem cluster_people_ids (people : list Person) (threshold : R) :
  Forall (fun p => 0 <= x_pos p <= 1 /\ 0 <= y_pos p <= 1) people ->
  exists out,
    cluster_people people threshold = Ok out
    /\ cl_id <$> out = seq 0 (length out)
    /\ (length out <= length people)%nat
    /\ (out = [] <-> people = []).
Proof.
  intros _.
  destruct (cluster_people_groups people threshold) as [Hrun _].
  eexists. split; [exact Hrun|].
  destruct (fold_place_length threshold people []) as [Hlen Hne].
  fold (first_fit_groups threshold people) in Hlen, Hne.
  rewrite length_imap. split; [|split].
  - rewrite <- (imap_cluster_of_ids _ 0). reflexivity.
  - simpl in Hlen. lia.
  - split.
    + intros Hnil. destruct people as [|p people]; [reflexivity|].
      exfalso. apply Hne; [discriminate|].
      destruct (first_fit_groups threshold (p :: people)); [reflexivity|].
      discriminate Hnil.
    + intros ->. reflexivity.
Qed.

Lemma cluster_people_ids_witness :
  exists out,
    cluster_people [person_a; person_b; person_c] (5 / 100) = Ok out
    /\ cl_id <$> out = seq 0 (length out)
    /\ (length out <= 3)%nat
    /\ (out = [] <-> [person_a; person_b; person_c] = []).
Proof.
  apply (cluster_people_ids [person_a; person_b; person_c] (5 / 100)).
  apply Forall_cons_2; [simpl; lra|].
  apply Forall_cons_2; [simpl; lra|].
  apply Forall_cons_2; [simpl; lra|].
  apply Forall_nil_2.
Defined.

Lemma sum_bounds (l : list R) (lo hi : R) :
  Forall (fun v => lo <= v <= hi) l ->
  INR (length l) * lo <= fold_right Rplus 0 l <= INR (length l) * hi.
Proof.
  induction 1 as [|v l Hv _ IH].
  - simpl. lra.
  - cbn [fold_right length]. rewrite S_INR. lra.
Qed.

Lemma mean_bounds (l : list R) (lo hi : R) :
  l <> [] -> Forall (fun v => lo <= v <= hi) l -> lo <= mean l <= hi.
Proof.
  intros Hne Hall. unfold mean.
  assert (Hn : 0 < INR (length l)).
  { apply lt_0_INR. destruct l; [congruence|simpl; lia]. }
  pose proof (sum_bounds l lo hi Hall) as [Hlo Hhi]. split.
  - apply (Rmult_le_reg_r (INR (length l))); [exact Hn|].
    unfold Rdiv. rewrite Rmult_assoc, Rinv_l by lra. lra.
  - apply (Rmult_le_reg_r (INR (length l))); [exact Hn|].
    unfold Rdiv. rewrite Rmult_assoc, Rinv_l by lra. lra.
Qed.

Lemma group_members (threshold : R) (people group : list Person)
    (person : Person) :
  group ∈ first_fit_groups threshold people -> person ∈ group ->
  person ∈ people.
Proof.
  intros Hg Hp.
  pose proof (fold_place_concat threshold people []) as Hperm.
  fold (first_fit_groups threshold people) in Hperm. simpl in Hperm.
  rewrite <- Hperm. apply list_elem_of_In, in_concat.
  exists group. split; apply list_elem_of_In; assumption.
Qed.

Lemma cluster_people_bounds (people : list Person) (threshold : R)
    (xlo xhi ylo yhi : R) :
  Forall (fun p => xlo <= x_pos p <= xhi /\ ylo <= y_pos p <= yhi) people ->
  exists out,
    cluster_people people threshold = Ok out
    /\ Forall (fun c => xlo <= cl_x c <= xhi /\ ylo <= cl_y c <= yhi
                        /\ exists p, p ∈ people /\ cl_conf c = confidence p)
         out.
Proof.
  intros Hbox. destruct (cluster_people_groups people threshold) as [Hrun Hne].
  eexists. split; [exact Hrun|].
  apply Forall_lookup. intros k c Hk.
  rewrite list_lookup_imap in Hk.
  destruct (first_fit_groups threshold people !! k) as [g|] eqn:Hg;
    [|discriminate]. simpl in Hk. injection Hk as <-.
  assert (Hin : g ∈ first_fit_groups threshold people)
    by (eapply list_elem_of_lookup_2; exact Hg).
  assert (Hgne : g <> []).
  { rewrite Forall_forall in Hne. apply Hne, Hin. }
  assert (Hmem : forall p, p ∈ g -> p ∈ people)
    by (intros p; apply group_members with (threshold := threshold); exact Hin).
  rewrite Forall_forall in Hbox.
  cbn [cluster_of cl_x cl_y cl_conf centroid fst snd].
  split; [|split].
  - apply mean_bounds; [destruct g; [congruence|discriminate]|].
    apply Forall_fmap, Forall_forall. intros p Hp. apply Hbox, Hmem, Hp.
  - apply mean_bounds; [destruct g; [congruence|discriminate]|].
    apply Forall_fmap, Forall_forall. intros p Hp. apply Hbox, Hmem, Hp.
  - destruct (max_confidence_is_max g Hgne) as [(p & Hp & Hmax) _].
    exists p. split; [apply Hmem, Hp|symmetry; exact Hmax].
Qed.

(** Every detection is in a cluster whose confidence is at least its own. *)
Lemma cluster_people_covers (people : list Person) (threshold : R)
    (out : list Cluster) (person : Person) :
  cluster_people people threshold = Ok out -> person ∈ people ->
  exists c, c ∈ out /\ confidence person <= cl_conf c.
Proof.
  destruct (cluster_people_groups people threshold) as [Hrun Hne].
  rewrite Hrun. intros [= <-] Hp.
  pose proof (fold_place_concat threshold people []) as Hperm.
  fold (first_fit_groups threshold people) in Hperm. simpl in Hperm.
  rewrite <- Hperm in Hp. apply list_elem_of_In, in_concat in Hp.
  destruct Hp as (g & Hg & Hpg).
  apply list_elem_of_In in Hg. apply list_elem_of_In in Hpg.
  apply list_elem_of_lookup_1 in Hg as [k Hk].
  exists (cluster_of k g). split.
  - apply list_elem_of_lookup_2 with (i := k).
    rewrite list_lookup_imap, Hk. reflexivity.
  - assert (Hgne : g <> []) by (intros ->; inversion Hpg).
    apply (max_confidence_is_max g Hgne). exact Hpg.
Qed.

Lemma cluster_people_confidences (people : list Person) (threshold : R) :
  exists out,
    cluster_people people threshold = Ok out
    /\ (out = [] <-> people = [])
    /\ Forall (fun c => exists p, p ∈ people /\ cl_conf c = confidence p) out.
Proof.
  destruct (cluster_people_groups people threshold) as [Hrun Hne].
  eexists. split; [exact Hrun|]. split.
  - destruct (fold_place_length threshold people []) as [_ Hne'].
    fold (first_fit_groups threshold people) in Hne'. split.
    + intros Hnil. destruct people as [|p people]; [reflexivity|].
      exfalso. apply Hne'; [discriminate|].
      destruct (first_fit_groups threshold (p :: people)); [reflexivity|].
      discriminate Hnil.
    + intros ->. reflexivity.
  - apply Forall_lookup. intros k c Hk.
    rewrite list_lookup_imap in Hk.
    destruct (first_fit_groups threshold people !! k) as [g|] eqn:Hg;
      [|discriminate]. simpl in Hk. injection Hk as <-.
    assert (Hin : g ∈ first_fit_groups threshold people)
      by (eapply list_elem_of_lookup_2; exact Hg).
    assert (Hgne : g <> []).
    { rewrite Forall_forall in Hne. apply Hne, Hin. }
    destruct (max_confidence_is_max g Hgne) as [(p & Hp & Hmax) _].
    exists p. split; [|symmetry; exact Hmax].
    apply group_members with (threshold := threshold) (group := g); assumption.
Qed.

(** X2. Every cluster [cluster_people] returns lies in any axis-parallel
    box that holds all the detections, and its confidence is the
    confidence of one of the detections. *)
Theorem cluster_people_within (people : list Person) (threshold : R)
    (xlo xhi ylo yhi : R) :
  Forall (fun p => xlo <= x_pos p <= xhi /\ ylo <= y_pos p <= yhi) people ->
  exists out,
    cluster_people people threshold = Ok out
    /\ Forall (fun c => xlo <= cl_x c <= xhi /\ ylo <= cl_y c <= yhi
                        /\ exists p, p ∈ people /\ cl_conf c = confidence p)
         out.
Proof. exact (cluster_people_bounds people threshold xlo xhi ylo yhi). Qed.

Lemma cluster_people_within_witness :
  exists out,
    cluster_people [person_a; person_b; person_c] (5 / 100) = Ok out
    /\ Forall (fun c => 0 <= cl_x c <= 1 /\ 0 <= cl_y c <= 1
                        /\ exists p, p ∈ [person_a; person_b; person_c]
                                     /\ cl_conf c = confidence p)
         out.
Proof.
  apply (cluster_people_within [person_a; person_b; person_c] (5 / 100) 0 1 0 1).
  repeat constructor; simpl; lra.
Defined.

Lemma sum_list_lengths (groups : list (list Person)) :
  sum_list (count <$> (acc_of <$> groups)) = length (concat groups).
Proof.
  induction groups as [|g groups IH]; [reflexivity|].
  rewrite !fmap_cons. cbn [sum_list concat count acc_of].
  rewrite IH, length_app. reflexivity.
Qed.

(** X3. The accumulators built by the clustering loop count every
    detection once: their [count] fields add up to the number of
    detections. *)
Theorem add_people_counts (people : list Person) (threshold : R) :
  exists clusters,
    add_people threshold [] people = Ok clusters
    /\ sum_list (count <$> clusters) = length people.
Proof.
  destruct (add_people_refines threshold people []) as [Hrun _];
    [constructor|].
  eexists. split; [exact Hrun|].
  rewrite sum_list_lengths, (fold_place_concat threshold people []).
  reflexivity.
Qed.

Lemma centroid_distance_nonneg (group : list Person) (person : Person) :
  0 <= centroid_distance group person.
Proof. unfold centroid_distance. apply sqrt_pos. Qed.

Lemma join_first_never (threshold : R) (groups : list (list Person))
    (person : Person) :
  threshold <= 0 -> join_first threshold groups person = None.
Proof.
  intros Ht. induction groups as [|g groups IH]; [reflexivity|].
  cbn [join_first]. pose proof (centroid_distance_nonneg g person).
  rewrite decide_False by lra. rewrite IH. reflexivity.
Qed.

Lemma first_fit_singletons (threshold : R) (people : list Person)
    (groups : list (list Person)) :
  threshold <= 0 ->
  fold_left (place threshold) people groups
  = groups ++ ((fun p => [p]) <$> people).
Proof.
  intros Ht. revert groups.
  induction people as [|p people IH]; intros groups.
  - simpl. rewrite app_nil_r. reflexivity.
  - cbn [fold_left]. rewrite IH. unfold place.
    rewrite (join_first_never threshold groups p Ht). simpl.
    rewrite <- app_assoc. reflexivity.
Qed.

(** X4. With a threshold of zero or less nothing is merged: every
    detection comes back as a cluster of its own, in order, with its
    position and confidence unchanged. *)
Theorem cluster_people_no_merge (people : list Person) (threshold : R) :
  threshold <= 0 ->
  cluster_people people threshold
  = Ok (imap (fun i p => {| cl_id := i; cl_x := x_pos p; cl_y := y_pos p;
                            cl_conf := confidence p |}) people).
Proof.
  intros Ht. destruct (cluster_people_groups people threshold) as [Hrun _].
  rewrite Hrun. f_equal. unfold first_fit_groups.
  rewrite (first_fit_singletons threshold people [] Ht). simpl.
  rewrite imap_fmap. apply imap_ext. intros i p _.
  unfold cluster_of, centroid, mean, compose. simpl. f_equal; field.
Qed.

Lemma cluster_people_no_merge_witness :
  cluster_people [person_a; person_c] 0
  = Ok [ {| cl_id := 0; cl_x := 10 / 100; cl_y := 1 / 2; cl_conf := 9 / 10 |};
         {| cl_id := 1; cl_x := 14 / 100; cl_y := 1 / 2; cl_conf := 7 / 10 |} ].
Proof.
  apply (cluster_people_no_merge [person_a; person_c] 0). lra.
Defined.

End ClusteringExtras.

(* ===================================================================== *)
(** ** Further properties of the online tracker *)
(* ===================================================================== *)

Module TrackerExtras.
Import Tracker TrackerProofs.

(** *** What every reachable tracker state satisfies *)

Section Health.
(** [G] stands for "coordinates are normalized and confidences are at
    most 1"; what rules out arithmetic on [None] and a zero divisor in
    the blend is the sign of the confidences alone. *)
Variable G : Prop.

Definition good_cluster (c : Cluster) : Prop :=
  0 <= cl_conf c /\ (G -> normalized c /\ cl_conf c <= 1).

Definition healthy (st : State) : Prop :=
  (forall cur, current_id st = Some cur ->
     exists cc, current_confidence st = Some cc /\ 0 <= cc /\ (G -> cc <= 1))
  /\ (forall pid, nt_id (new_target st) = Some pid ->
        exists nc, nt_confidence (new_target st) = Some nc
                   /\ 0 < nc /\ (G -> nc <= 1))
  /\ (G -> unit_square (position st)).

Lemma healthy_init : healthy init.
Proof.
  unfold healthy, init, unit_square, DEFAULT_CENTER; simpl.
  split; [discriminate|]. split; [discriminate|]. intros _. lra.
Qed.

Lemma update_healthy (st : State) (c : Cluster) (d thr mt : R) :
  healthy st -> good_cluster c ->
  exists st' s, update st c d thr mt = Ok (st', s) /\ healthy st'.
Proof.
  intros (Hcur & Hnt & Hpos) (Hc0 & HcG). unfold update.
  destruct (decide (d > thr)); [eexists _, _; split; [reflexivity|apply healthy_init]|].
  assert (Hbox : G -> unit_square (cl_x c, cl_y c)) by (intros g; apply HcG, g).
  cbn [current_id set_lost_frames get_position position current_confidence
       lock_countdown new_target].
  destruct (current_id st) as [cur|] eqn:Ecur.
  2:{ eexists _, _. split; [reflexivity|]. unfold healthy. simpl.
      split; [|split; [exact Hnt|exact Hbox]].
      intros ? _. exists (cl_conf c). split; [reflexivity|].
      split; [exact Hc0|]. intros g. apply HcG, g. }
  destruct (Hcur cur eq_refl) as (cc & Hcc & Hcc0 & Hcc1).
  destruct (decide (distance _ _ _ _ > mt)).
  { eexists _, _. split; [reflexivity|]. unfold healthy. simpl.
    split; [|split; [exact Hnt|exact Hbox]].
    intros ? _. exists (cl_conf c). split; [reflexivity|].
    split; [exact Hc0|]. intros g. apply HcG, g. }
  destruct (decide (cl_id c = cur)).
  { eexists _, _. split; [reflexivity|]. unfold healthy. simpl.
    split; [|split; [discriminate|exact Hbox]].
    intros ? _. exists (cl_conf c). split; [reflexivity|].
    split; [exact Hc0|]. intros g. apply HcG, g. }
  rewrite Hcc.
  destruct (decide (cl_conf c < cc + CONFIDENCE_MARGIN)) as [|Hstrong].
  { eexists _, _. split; [reflexivity|]. unfold healthy. simpl.
    rewrite Ecur, Hcc.
    split; [|split; [discriminate|exact Hbox]].
    intros ? _. exists cc. auto. }
  destruct (decide (lock_countdown st > 0)%nat).
  { eexists _, _. split; [reflexivity|]. unfold healthy. simpl.
    rewrite Ecur, Hcc.
    split; [|split; [exact Hnt|exact Hbox]].
    intros ? _. exists cc. auto. }
  pose proof margin_pos as Hm.
  assert (Hstart : healthy
            (set_new_target (set_lost_frames st (lost_frames st + 1))
               {| nt_id := Some (cl_id c); nt_confidence := Some (cl_conf c);
                  nt_frames := 1 |})).
  { unfold healthy. simpl. rewrite Ecur, Hcc.
    split; [intros ? _; exists cc; auto|]. split; [|exact Hpos].
    intros ? _. exists (cl_conf c). split; [reflexivity|].
    split; [lra|]. intros g. apply HcG, g. }
  cbv zeta.
  destruct (nt_id (new_target st)) as [pid|] eqn:Epid;
    [|eexists _, _; split; [reflexivity|exact Hstart]].
  destruct (decide (pid <> cl_id c));
    [eexists _, _; split; [reflexivity|exact Hstart]|].
  destruct (Hnt pid eq_refl) as (nc & Hnc & Hnc0 & Hnc1). rewrite Hnc.
  unfold Py.div. rewrite !decide_False by lra. cbn [Py.bind].
  set (new_x := (nc * cl_x c + cc * fst (position st)) / (nc + cc)).
  set (new_y := (nc * cl_y c + cc * snd (position st)) / (nc + cc)).
  assert (Hnew : G -> unit_square (new_x, new_y)).
  { intros g. destruct (Hpos g) as [Hpx Hpy].
    destruct (Hbox g) as [Hx Hy]. simpl in Hx, Hy.
    split; simpl; apply weighted_mean_unit; assumption. }
  destruct (decide (_ >= wait_frames)%nat) as [Hfull|Hshort].
  - eexists _, _. split; [reflexivity|]. unfold healthy. simpl.
    split; [|split; [discriminate|]].
    + intros ? _. exists nc. split; [reflexivity|]. split; [lra|exact Hnc1].
    + intros g. destruct (Hnew g) as [Hnx Hny]. destruct (Hbox g) as [Hx Hy].
      pose proof (Hnc1 g). simpl in Hnx, Hny, Hx, Hy.
      split; simpl; nra.
  - eexists _, _. split; [reflexivity|]. unfold healthy. simpl.
    rewrite Ecur, Hcc.
    split; [intros ? _; exists cc; auto|]. split; [|exact Hnew].
    intros ? _. exists nc. auto.
Qed.

Lemma handle_no_detection_healthy (st : State) (d thr : R) :
  healthy st -> healthy (fst (handle_no_detection st d thr)).
Proof.
  intros Hst. unfold handle_no_detection.
  repeat case_decide; simpl; try apply healthy_init. exact Hst.
Qed.

Lemma run_healthy (frames : list (option Cluster * R)) (st : State) :
  healthy st ->
  Forall (fun f => forall c, fst f = Some c -> good_cluster c) frames ->
  exists st', run st frames = Ok st' /\ healthy st'.
Proof.
  revert st. induction frames as [|[cand d] frames IH]; intros st Hst Hall.
  - exists st. split; [reflexivity|exact Hst].
  - apply Forall_cons in Hall as [Hf Hall].
    destruct cand as [c|].
    + destruct (update_healthy st c d scene_change_threshold max_movement Hst
                  (Hf c eq_refl)) as (st1 & s & Hup & Hst1).
      rewrite (run_cons st st1 (Some c) d s frames Hup).
      apply IH; assumption.
    + change (run st ((None, d) :: frames))
        with (run (fst (handle_no_detection st d scene_change_threshold))
                frames).
      apply IH; [|exact Hall].
      apply handle_no_detection_healthy, Hst.
Qed.

End Health.

(** X6. When every candidate has normalized coordinates and a confidence
    between 0 and 1, the position of a tracker that starts fresh stays
    inside the unit square, whatever the stream. *)
Theorem run_position_normalized (frames : list (option Cluster * R)) :
  Forall (fun f => forall c, fst f = Some c ->
                             normalized c /\ 0 <= cl_conf c <= 1) frames ->
  exists st, run init frames = Ok st /\ unit_square (position st).
Proof.
  intros Hall.
  destruct (run_healthy True frames init (healthy_init True))
    as (st & Hrun & _ & _ & Hpos).
  - eapply Forall_impl; [exact Hall|]. intros f Hf c Hc.
    destruct (Hf c Hc) as [Hn [H0 H1]]. split; [exact H0|]. auto.
  - exists st. split; [exact Hrun|]. apply Hpos. exact I.
Qed.

Lemma run_position_normalized_witness :
  exists st,
    run init [(Some centre_person, 0); (Some rival_person, 0)] = Ok st
    /\ unit_square (position st).
Proof.
  apply run_position_normalized.
  repeat (apply Forall_cons_2;
          [intros c Hc; simpl in Hc; simplify_eq;
           unfold normalized, unit_square; simpl; lra|]).
  apply Forall_nil_2.
Defined.

(** *** Gaps in the detections *)

Lemma run_gap (frames : list (option Cluster * R)) (st : State) :
  Forall (fun f => fst f = None /\ ~ snd f > scene_change_threshold) frames ->
  (lost_frames st + length frames < wait_frames)%nat ->
  exists st',
    run st frames = Ok st'
    /\ lost_frames st' = (lost_frames st + length frames)%nat
    /\ current_id st' = current_id st
    /\ current_confidence st' = current_confidence st
    /\ position st' = position st
    /\ lock_countdown st' = lock_countdown st
    /\ new_target st' = new_target st.
Proof.
  revert st. induction frames as [|[cand d] frames IH]; intros st Hall Hlen.
  - exists st. simpl. rewrite Nat.add_0_r. auto 10.
  - apply Forall_cons in Hall as [[Hnone Hd] Hall]. simpl in Hnone, Hd.
    subst cand. cbn [length] in Hlen.
    assert (Hstep : track st None d
                    = Ok (set_lost_frames st (lost_frames st + 1),
                          Holding (lost_frames st + 1))).
    { simpl. unfold handle_no_detection.
      rewrite decide_False by exact Hd. simpl.
      rewrite decide_True by lia. reflexivity. }
    rewrite (run_cons _ _ _ _ _ _ Hstep).
    destruct (IH (set_lost_frames st (lost_frames st + 1)) Hall)
      as (st' & Hrun & Hlost & Hrest); [simpl; lia|].
    exists st'. split; [exact Hrun|]. split; [|exact Hrest].
    rewrite Hlost. simpl. lia.
Qed.

(** X7. Frames without candidate and without scene cut only count in
    [lost_frames] while the counter stays below [wait_frames] (30):
    position, subject, lock and pending candidate are held.  The frame
    that brings the counter to 30 resets the tracker. *)
Theorem gap_holds_then_resets (frames : list (option Cluster * R))
    (st : State) (d : R) :
  Forall (fun f => fst f = None /\ ~ snd f > scene_change_threshold) frames ->
  ~ d > scene_change_threshold ->
  (lost_frames st + length frames < wait_frames)%nat ->
  (exists st',
      run st frames = Ok st'
      /\ lost_frames st' = (lost_frames st + length frames)%nat
      /\ current_id st' = current_id st
      /\ current_confidence st' = current_confidence st
      /\ position st' = position st
      /\ lock_countdown st' = lock_countdown st
      /\ new_target st' = new_target st)
  /\ ((lost_frames st + length frames + 1 = wait_frames)%nat ->
      run st (frames ++ [(None, d)]) = Ok init).
Proof.
  intros Hall Hd Hlen.
  destruct (run_gap frames st Hall Hlen) as (st' & Hrun & Hlost & Hrest).
  split; [exists st'; auto|].
  intros Hlast. eapply run_snoc; [exact Hrun|]. simpl.
  unfold handle_no_detection. rewrite decide_False by exact Hd. simpl.
  rewrite decide_False by lia. reflexivity.
Qed.

Lemma gap_holds_then_resets_witness :
  run on_centre_person (repeat (None, 0) 28 ++ [(None, 0)]) = Ok init.
Proof.
  apply (gap_holds_then_resets (repeat (None, 0) 28) on_centre_person 0).
  - apply Forall_forall. intros f Hin. apply list_elem_of_In in Hin.
    apply repeat_spec in Hin. subst f. simpl.
    unfold scene_change_threshold. split; [reflexivity|lra].
  - unfold scene_change_threshold. lra.
  - simpl. unfold wait_frames. lia.
  - reflexivity.
Defined.

(** *** The lock *)

(** In lock on subject [cur]. *)
Definition locked_on (cur : nat) (st : State) : Prop :=
  current_id st = Some cur
  /\ (exists cc, current_confidence st = Some cc)
  /\ (lock_countdown st > 0)%nat
  /\ unit_square (position st).

Lemma update_locked (st : State) (c : Cluster) (d : R) (cur : nat) :
  locked_on cur st -> normalized c -> ~ d > scene_change_threshold ->
  exists st' s,
    update st c d scene_change_threshold max_movement = Ok (st', s)
    /\ locked_on cur st'
    /\ lock_countdown st' = lock_countdown st
    /\ (nt_id (new_target st) = None -> nt_id (new_target st') = None).
Proof.
  intros (Hcur & (cc & Hcc) & Hlock & Hpos) Hc Hd.
  destruct (decide (cl_id c = cur)) as [Hid|Hid].
  { eexists _, _. split; [apply (update_following st c d cur); assumption|].
    unfold locked_on. simpl. rewrite Hcur. split; [|auto].
    split; [reflexivity|]. split; [eauto|]. split; [exact Hlock|exact Hc]. }
  destruct (decide (cl_conf c < cc + CONFIDENCE_MARGIN)) as [Hlt|Hge].
  { eexists _, _.
    split; [apply (update_not_strong st c d cur cc); assumption|].
    unfold locked_on. simpl. rewrite Hcur, Hcc. split; [|auto].
    split; [reflexivity|]. split; [eauto|]. split; [exact Hlock|exact Hc]. }
  eexists _, _.
  split; [apply (update_in_lock st c d cur cc); try assumption; lra|].
  unfold locked_on. simpl. rewrite Hcur, Hcc. split; [|auto].
  split; [reflexivity|]. split; [eauto|]. split; [exact Hlock|exact Hc].
Qed.

(** X8. Once in lock, the tracker stays on its subject and in lock for as
    long as every frame has a candidate with normalized coordinates and
    there is no scene cut, whatever the candidates' ids and confidences;
    no pending count is started. *)
Theorem lock_is_kept (frames : list (option Cluster * R)) (st : State)
    (cur : nat) :
  locked_on cur st ->
  Forall (fun f => (exists c, fst f = Some c /\ normalized c)
                   /\ ~ snd f > scene_change_threshold) frames ->
  exists st',
    run st frames = Ok st'
    /\ current_id st' = Some cur
    /\ lock_countdown st' = lock_countdown st
    /\ (nt_id (new_target st) = None -> nt_id (new_target st') = None).
Proof.
  revert st. induction frames as [|[cand d] frames IH]; intros st Hst Hall.
  - exists st. simpl. destruct Hst as (Hcur & _). auto.
  - apply Forall_cons in Hall as [[(c & Hf & Hc) Hd] Hall].
    simpl in Hf, Hd. subst cand.
    destruct (update_locked st c d cur Hst Hc Hd)
      as (st1 & s & Hup & Hst1 & Hlock1 & Hnt1).
    rewrite (run_cons st st1 (Some c) d s frames Hup).
    destruct (IH st1 Hst1 Hall) as (st' & Hrun & Hcur' & Hlock' & Hnt').
    exists st'. split; [exact Hrun|]. split; [exact Hcur'|].
    split; [congruence|]. auto.
Qed.

Lemma lock_is_kept_witness :
  exists st',
    run (set_lock_countdown on_centre_person lock_frames)
      [(Some rival_person, 0); (Some rival_person, 0)] = Ok st'
    /\ current_id st' = Some 0%nat.
Proof.
  destruct (lock_is_kept [(Some rival_person, 0); (Some rival_person, 0)]
              (set_lock_countdown on_centre_person lock_frames) 0%nat)
    as (st' & Hrun & Hcur & _).
  - unfold locked_on, unit_square, lock_frames. simpl.
    split; [reflexivity|]. split; [eauto|]. split; [lia|lra].
  - repeat (apply Forall_cons_2;
            [split; [exists rival_person; split;
                       [reflexivity|exact rival_person_normalized]
                    |unfold scene_change_threshold; simpl; lra]|]).
    apply Forall_nil_2.
  - exists st'. split; assumption.
Defined.

(** *** Scene cuts *)

(** X9. A scene cut forgets everything, and the candidate of the next
    frame is adopted at once, whatever its confidence and position: no
    margin, no lock and no pending count applies. *)
Theorem cut_then_adopt (st : State) (cand : option Cluster) (c : Cluster)
    (d1 d2 : R) :
  d1 > scene_change_threshold -> ~ d2 > scene_change_threshold ->
  run st [(cand, d1); (Some c, d2)]
  = Ok {| current_id := Some (cl_id c);
          current_confidence := Some (cl_conf c);
          position := (cl_x c, cl_y c);
          lost_frames := 1;
          lock_countdown := 0;
          new_target := {| nt_id := None; nt_confidence := None;
                           nt_frames := 0 |} |}.
Proof.
  intros Hd1 Hd2.
  assert (Hcut : track st cand d1 = Ok (init, SceneChange)).
  { destruct cand as [c1|]; simpl.
    - unfold update. rewrite decide_True by exact Hd1. reflexivity.
    - unfold handle_no_detection. rewrite decide_True by exact Hd1.
      reflexivity. }
  rewrite (run_cons _ _ _ _ _ _ Hcut). simpl. unfold update.
  rewrite decide_False by exact Hd2. reflexivity.
Qed.

Lemma cut_then_adopt_witness :
  run on_centre_person [(None, 5000); (Some rival_person, 0)]
  = Ok {| current_id := Some 1%nat;
          current_confidence := Some (9 / 10);
          position := (1 / 2, 1 / 2);
          lost_frames := 1;
          lock_countdown := 0;
          new_target := {| nt_id := None; nt_confidence := None;
                           nt_frames := 0 |} |}.
Proof.
  apply (cut_then_adopt on_centre_person None rival_person 5000 0);
    unfold scene_change_threshold; lra.
Defined.

End TrackerExtras.

(* ===================================================================== *)
(** ** From detections to the tracker *)
(* ===================================================================== *)

Module PipelineExtras.
Import Clustering Pipeline ClusteringExtras TrackerProofs TrackerExtras.

(** *** The detections kept *)

Lemma people_from_spec (keypoints : list Keypoint) (i : nat) (p : Person) :
  p ∈ people_from i keypoints <->
  exists k kp, keypoints !! k = Some kp
               /\ kp_conf kp > DETECTION_CONFIDENCE_THRESHOLD
               /\ p = {| person_id := i + k; y_pos := kp_y kp;
                         x_pos := kp_x kp; confidence := kp_conf kp |}.
Proof.
  revert i. induction keypoints as [|kp0 keypoints IH]; intros i.
  - simpl. split; [intros H; inversion H|intros (k & kp & Hk & _); discriminate].
  - cbn [people_from]. split.
    + intros Hin. case_decide.
      * apply elem_of_cons in Hin as [->|Hin].
        -- exists 0%nat, kp0. rewrite Nat.add_0_r. auto.
        -- apply IH in Hin as (k & kp & Hk & Hc & ->).
           exists (S k), kp. split; [exact Hk|]. split; [exact Hc|].
           f_equal. lia.
      * apply IH in Hin as (k & kp & Hk & Hc & ->).
        exists (S k), kp. split; [exact Hk|]. split; [exact Hc|].
        f_equal. lia.
    + intros (k & kp & Hk & Hc & ->). destruct k as [|k].
      * simpl in Hk. injection Hk as ->. rewrite decide_True by exact Hc.
        rewrite Nat.add_0_r. left.
      * simpl in Hk.
        assert (Hin : {| person_id := i + S k; y_pos := kp_y kp;
                         x_pos := kp_x kp; confidence := kp_conf kp |}
                      ∈ people_from (S i) keypoints).
        { apply IH. exists k, kp. split; [exact Hk|]. split; [exact Hc|].
          f_equal. lia. }
        case_decide; [right|]; exact Hin.
Qed.

(** *** The best cluster *)

Section Best.
Let step (best c : Cluster) : Cluster :=
  if decide (cl_conf c > cl_conf best) then c else best.

(** [best] is the first of the largest among the clusters seen. *)
Definition first_largest (seen : list Cluster) (best : Cluster) : Prop :=
  exists k, seen !! k = Some best
            /\ (forall j c, (j < k)%nat -> seen !! j = Some c ->
                            cl_conf c < cl_conf best)
            /\ forall c, c ∈ seen -> cl_conf c <= cl_conf best.

Lemma fold_first_largest (rest seen : list Cluster) (best : Cluster) :
  first_largest seen best ->
  first_largest (seen ++ rest) (fold_left step rest best).
Proof.
  revert seen best. induction rest as [|c rest IH]; intros seen best Hinv.
  - simpl. rewrite app_nil_r. exact Hinv.
  - cbn [fold_left]. replace (seen ++ c :: rest) with ((seen ++ [c]) ++ rest)
      by (rewrite <- app_assoc; reflexivity).
    apply IH. destruct Hinv as (k & Hk & Hbefore & Hall). unfold step.
    pose proof (lookup_lt_Some _ _ _ Hk) as Hklt.
    case_decide as Hgt.
    + exists (length seen). split; [|split].
      * rewrite lookup_app_r by lia. rewrite Nat.sub_diag. reflexivity.
      * intros j c' Hj Hc'. rewrite lookup_app_l in Hc' by lia.
        apply list_elem_of_lookup_2 in Hc'. pose proof (Hall c' Hc'). lra.
      * intros c' Hc'. apply elem_of_app in Hc' as [Hc'|Hc'].
        -- pose proof (Hall c' Hc'). lra.
        -- apply list_elem_of_singleton in Hc' as ->. lra.
    + exists k. split; [|split].
      * rewrite lookup_app_l by lia. exact Hk.
      * intros j c' Hj Hc'. rewrite lookup_app_l in Hc' by lia.
        exact (Hbefore j c' Hj Hc').
      * intros c' Hc'. apply elem_of_app in Hc' as [Hc'|Hc'].
        -- exact (Hall c' Hc').
        -- apply list_elem_of_singleton in Hc' as ->. lra.
Qed.

Lemma max_by_conf_first_largest (first : Cluster) (rest : list Cluster) :
  first_largest (first :: rest) (max_by_conf first rest).
Proof.
  apply (fold_first_largest rest [first] first).
  exists 0%nat. split; [reflexivity|]. split; [intros; lia|].
  intros c Hc. apply list_elem_of_singleton in Hc as ->. lra.
Qed.

End Best.

(** X10. The cluster chosen with [max(..., key=confidence)] is one of the
    clusters, no cluster has a larger confidence, and every cluster
    before it in the list has a strictly smaller one: among equals the
    first wins. *)
Theorem max_by_conf_spec (first : Cluster) (rest : list Cluster) :
  exists k,
    (first :: rest) !! k = Some (max_by_conf first rest)
    /\ (forall j c, (j < k)%nat -> (first :: rest) !! j = Some c ->
                    cl_conf c < cl_conf (max_by_conf first rest))
    /\ forall c, c ∈ first :: rest ->
                 cl_conf c <= cl_conf (max_by_conf first rest).
Proof. exact (max_by_conf_first_largest first rest). Qed.

(** *** One frame *)

Lemma people_of_empty (keypoints : list Keypoint) :
  people_of keypoints = [] <->
  Forall (fun kp => ~ kp_conf kp > DETECTION_CONFIDENCE_THRESHOLD) keypoints.
Proof.
  unfold people_of. split.
  - intros Hnil. apply Forall_lookup. intros k kp Hk Hc.
    assert (Hin : {| person_id := 0 + k; y_pos := kp_y kp; x_pos := kp_x kp;
                     confidence := kp_conf kp |} ∈ people_from 0 keypoints)
      by (apply people_from_spec; eauto).
    rewrite Hnil in Hin. inversion Hin.
  - intros Hall. destruct (people_from 0 keypoints) as [|p ps] eqn:Hp;
      [reflexivity|].
    assert (Hin : p ∈ people_from 0 keypoints) by (rewrite Hp; left).
    apply people_from_spec in Hin as (k & kp & Hk & Hc & _).
    rewrite Forall_lookup in Hall. destruct (Hall k kp Hk Hc).
Qed.

(** X11. [process_frame] treats a frame as without detection exactly when
    no keypoint row has a confidence above 0.3; otherwise the candidate it
    hands to [update] carries the largest confidence of all rows of the
    frame, and it never raises before reaching the tracker. *)
Theorem process_frame_candidate (tracker : Tracker.State)
    (keypoints : list Keypoint) (frame_diff : R) :
  (Forall (fun kp => ~ kp_conf kp > DETECTION_CONFIDENCE_THRESHOLD) keypoints
   /\ process_frame tracker keypoints frame_diff
      = Ok (Tracker.handle_no_detection tracker frame_diff
              Tracker.scene_change_threshold))
  \/ (exists c,
        process_frame tracker keypoints frame_diff
        = Tracker.update tracker c frame_diff Tracker.scene_change_threshold
            Tracker.max_movement
        /\ (exists kp, kp ∈ keypoints /\ cl_conf c = kp_conf kp
                       /\ kp_conf kp > DETECTION_CONFIDENCE_THRESHOLD)
        /\ forall kp, kp ∈ keypoints -> kp_conf kp <= cl_conf c).
Proof.
  unfold process_frame.
  destruct (cluster_people_confidences (people_of keypoints) merge_threshold)
    as (out & Hrun & Hnil & Hconf).
  rewrite Hrun. cbn [Py.bind].
  destruct out as [|c0 rest].
  - left. split; [|reflexivity]. apply people_of_empty, Hnil. reflexivity.
  - right. exists (max_by_conf c0 rest). split; [reflexivity|].
    destruct (max_by_conf_first_largest c0 rest) as (k & Hk & _ & Hmax).
    assert (Hbest : max_by_conf c0 rest ∈ c0 :: rest)
      by (eapply list_elem_of_lookup_2; exact Hk).
    rewrite Forall_forall in Hconf.
    destruct (Hconf _ Hbest) as (p & Hp & Hpc).
    apply people_from_spec in Hp as (i & kp & Hi & Hc & ->).
    split.
    + exists kp. split; [eapply list_elem_of_lookup_2; exact Hi|].
      split; [exact Hpc|exact Hc].
    + intros kp' Hkp'.
      destruct (decide (kp_conf kp' > DETECTION_CONFIDENCE_THRESHOLD))
        as [Hc'|Hc'].
      * apply list_elem_of_lookup_1 in Hkp' as [i' Hi'].
        assert (Hin : {| person_id := 0 + i'; y_pos := kp_y kp';
                         x_pos := kp_x kp'; confidence := kp_conf kp' |}
                      ∈ people_of keypoints)
          by (apply people_from_spec; eauto).
        destruct (cluster_people_covers _ _ _ _ Hrun Hin) as (c & Hcin & Hle).
        pose proof (Hmax c Hcin). simpl in Hle. lra.
      * rewrite Hpc. simpl. simpl in Hpc. lra.
Qed.

(** *** A stream of frames *)

(** Normalized coordinates and a confidence of at most 1. *)
Definition normalized_keypoint (kp : Keypoint) : Prop :=
  0 <= kp_x kp <= 1 /\ 0 <= kp_y kp <= 1 /\ kp_conf kp <= 1.

Lemma process_frame_healthy (tracker : Tracker.State)
    (keypoints : list Keypoint) (frame_diff : R) :
  healthy True tracker -> Forall normalized_keypoint keypoints ->
  exists st' s,
    process_frame tracker keypoints frame_diff = Ok (st', s)
    /\ healthy True st'.
Proof.
  intros Hst Hkps. unfold process_frame.
  assert (Hbox : Forall (fun p => 0 <= x_pos p <= 1 /\ 0 <= y_pos p <= 1)
                   (people_of keypoints)).
  { apply Forall_forall. intros p Hp.
    apply people_from_spec in Hp as (k & kp & Hk & _ & ->). simpl.
    rewrite Forall_lookup in Hkps. destruct (Hkps k kp Hk) as (Hx & Hy & _).
    auto. }
  destruct (cluster_people_bounds (people_of keypoints) merge_threshold
              0 1 0 1 Hbox) as (out & Hrun & Hout).
  rewrite Hrun. cbn [Py.bind].
  destruct out as [|c0 rest].
  - pose proof (handle_no_detection_healthy True tracker frame_diff
                  Tracker.scene_change_threshold Hst) as Hh.
    destruct (Tracker.handle_no_detection tracker frame_diff
                Tracker.scene_change_threshold) as [st' s].
    exists st', s. split; [reflexivity|exact Hh].
  - destruct (max_by_conf_first_largest c0 rest) as (k & Hk & _).
    rewrite Forall_lookup in Hout.
    destruct (Hout k _ Hk) as (Hx & Hy & p & Hp & Hpc).
    apply people_from_spec in Hp as (i & kp & Hi & Hc & ->).
    rewrite Forall_lookup in Hkps. destruct (Hkps i kp Hi) as (_ & _ & Hle).
    simpl in Hpc. unfold DETECTION_CONFIDENCE_THRESHOLD in Hc.
    apply update_healthy; [exact Hst|].
    split; [lra|]. intros _. split; [split; assumption|lra].
Qed.

(** X12. Fed with keypoint rows whose coordinates are normalized and
    whose confidences are at most 1, [process_frame] never raises on any
    stream of frames from a fresh tracker, and the tracker position, from
    which the crop is cut, stays inside the unit square. *)
Theorem process_frames_normalized (frames : list (list Keypoint * R)) :
  Forall (fun f => Forall normalized_keypoint (fst f)) frames ->
  exists st,
    process_frames Tracker.init frames = Ok st
    /\ Tracker.unit_square (Tracker.position st).
Proof.
  intros Hall.
  enough (H : forall st, healthy True st ->
                exists st', process_frames st frames = Ok st'
                            /\ healthy True st').
  { destruct (H Tracker.init (healthy_init True)) as (st & Hrun & _ & _ & Hpos).
    exists st. split; [exact Hrun|]. apply Hpos. exact I. }
  induction frames as [|[kps d] frames IH]; intros st Hst.
  - exists st. split; [reflexivity|exact Hst].
  - apply Forall_cons in Hall as [Hkps Hall]. simpl in Hkps.
    destruct (process_frame_healthy st kps d Hst Hkps)
      as (st1 & s & Hstep & Hst1).
    cbn [process_frames]. rewrite Hstep. cbn [Py.bind fst].
    apply IH; assumption.
Qed.

Lemma process_frames_normalized_witness :
  exists st,
    process_frames Tracker.init
      [([mkKeypoint (1 / 2) (1 / 5) (9 / 10); mkKeypoint (1 / 2) (4 / 5) (1 / 5)], 0);
       ([], 0)] = Ok st
    /\ Tracker.unit_square (Tracker.position st).
Proof.
  apply process_frames_normalized.
  repeat (apply Forall_cons_2;
          [simpl; repeat (apply Forall_cons_2;
                            [unfold normalized_keypoint; simpl; lra|]);
           apply Forall_nil_2|]).
  apply Forall_nil_2.
Defined.

End PipelineExtras.

(* ===================================================================== *)
(** ** Further properties of the two-pass planner *)
(* ===================================================================== *)

Module PlannerExtras.
Import Planner PlannerProofs SmoothingProofs.

(** *** Records are only appended, and only their x is rewritten *)

Lemma backfill_keeps (scene_start : nat) (new_x : R) (rec : FrameRecord) :
  fr_num (backfill scene_start new_x rec) = fr_num rec
  /\ fr_scene (backfill scene_start new_x rec) = fr_scene rec
  /\ (fr_x (backfill scene_start new_x rec) <> fr_x rec ->
      (fr_num rec >= scene_start)%nat /\ fr_scene rec = false).
Proof.
  unfold backfill. case_decide; [|tauto].
  destruct (fr_scene rec) eqn:Hs; simpl; [tauto|]. auto.
Qed.

(** What a call does to [frame_data]: one record appended, or the
    backfill. *)
Lemma plan_movement_frame_data (pl : State) (n : nat)
    (cluster : option Cluster) (d thr : R) :
  (exists x b,
      frame_data (plan_movement pl n cluster d thr)
      = frame_data pl ++ [{| fr_num := n; fr_x := x; fr_scene := b |}])
  \/ (waiting_for_detection pl = true
      /\ exists c, cluster = Some c
                   /\ frame_data (plan_movement pl n cluster d thr)
                      = backfill (current_scene_start pl) (cl_x c)
                        <$> frame_data pl).
Proof.
  destruct (decide (d > thr)) as [Hd|Hd].
  - left. rewrite (plan_movement_cut pl n cluster d thr Hd). simpl. eauto.
  - destruct (waiting_for_detection pl) eqn:Hw, cluster as [c|].
    + right. split; [reflexivity|]. exists c. split; [reflexivity|].
      rewrite (plan_movement_backfill pl n c d thr Hd Hw). reflexivity.
    + left. destruct (plan_movement_normal pl n None d thr Hd)
        as (x & Hx & _); eauto.
    + left. destruct (plan_movement_normal pl n (Some c) d thr Hd)
        as (x & Hx & _); eauto.
    + left. destruct (plan_movement_normal pl n None d thr Hd)
        as (x & Hx & _); eauto.
Qed.

(** X13. A call of [plan_movement] leaves every earlier record in place
    with its frame number and scene flag, appends at most one record, for
    the frame of the call, and changes the x of an earlier record only
    while waiting for the first detection after a scene cut, on unflagged
    records from the scene start on. *)
Theorem plan_movement_append_only (pl : State) (n : nat)
    (cluster : option Cluster) (d thr : R) :
  (length (frame_data pl)
   <= length (frame_data (plan_movement pl n cluster d thr))
   <= S (length (frame_data pl)))%nat
  /\ (forall k rec, frame_data pl !! k = Some rec ->
        exists rec',
          frame_data (plan_movement pl n cluster d thr) !! k = Some rec'
          /\ fr_num rec' = fr_num rec
          /\ fr_scene rec' = fr_scene rec
          /\ (fr_x rec' <> fr_x rec ->
              waiting_for_detection pl = true
              /\ (fr_num rec >= current_scene_start pl)%nat
              /\ fr_scene rec = false))
  /\ (forall rec,
        frame_data (plan_movement pl n cluster d thr)
          !! length (frame_data pl) = Some rec ->
        fr_num rec = n).
Proof.
  destruct (plan_movement_frame_data pl n cluster d thr)
    as [(x & b & ->)|(Hw & c & _ & ->)].
  - rewrite length_app. simpl. split; [lia|]. split.
    + intros k rec Hk. exists rec. rewrite lookup_app_l
        by (eapply lookup_lt_Some; exact Hk).
      split; [exact Hk|]. split; [reflexivity|]. split; [reflexivity|].
      congruence.
    + intros rec. rewrite lookup_app_r by lia. rewrite Nat.sub_diag.
      intros [= <-]. reflexivity.
  - rewrite length_fmap. split; [lia|]. split.
    + intros k rec Hk. eexists. rewrite list_lookup_fmap, Hk.
      split; [reflexivity|].
      destruct (backfill_keeps (current_scene_start pl) (cl_x c) rec)
        as (Hn & Hs & Hx). auto.
    + intros rec Hk. apply lookup_lt_Some in Hk.
      rewrite length_fmap in Hk. lia.
Qed.

(** *** One smoothing step *)

Lemma smooth_step_convex (ba dt last_x target_x : R) :
  0 <= ba ->
  exists k, 0 <= k <= ba
            /\ smooth_step ba dt last_x target_x
               = last_x + k * (target_x - last_x).
Proof.
  intros Hba. unfold smooth_step, Py.abs, Py.min.
  pose proof (Rabs_pos (target_x - last_x)) as Habs.
  destruct (decide (Rabs (target_x - last_x) < dt)).
  - exists 0. split; [lra|]. lra.
  - repeat case_decide; eexists; (split; [|reflexivity]); nra.
Qed.

(** X14. A smoothing step moves from the last centre towards the target
    by a fraction of the gap that is at most [base_alpha], and by nothing
    inside the deadband: for [base_alpha] up to 1 it never passes the
    target. *)
Theorem smooth_step_fraction (ba dt last_x target_x : R) :
  0 <= ba ->
  (exists k, 0 <= k <= ba
             /\ smooth_step ba dt last_x target_x
                = last_x + k * (target_x - last_x))
  /\ (Rabs (target_x - last_x) < dt ->
      smooth_step ba dt last_x target_x = last_x).
Proof.
  intros Hba. split.
  - exact (smooth_step_convex ba dt last_x target_x Hba).
  - intros Hdead. unfold smooth_step, Py.abs.
    rewrite decide_True by exact Hdead. reflexivity.
Qed.

Lemma smooth_step_fraction_witness :
  (exists k, 0 <= k <= 1 / 10
             /\ smooth_step (1 / 10) (15 / 1000) (1 / 2) (7 / 10)
                = 1 / 2 + k * (7 / 10 - 1 / 2))
  /\ (Rabs (7 / 10 - 1 / 2) < 15 / 1000 ->
      smooth_step (1 / 10) (15 / 1000) (1 / 2) (7 / 10) = 1 / 2).
Proof. apply (smooth_step_fraction (1 / 10) (15 / 1000) (1 / 2) (7 / 10)). lra. Defined.

(** *** Scene segments *)

Lemma segments_loop_spec (B : Z) (data : list FrameRecord) (i : nat)
    (acc : list Segment) (s : nat) (ps : list R) :
  ((i > 0)%nat -> ps <> []) ->
  Forall (fun seg => positions seg <> [] /\ (end_frame seg < B)%Z) acc ->
  Forall (fun rec => (Z.of_nat (fr_num rec) < B)%Z) data ->
  exists acc' s' ps',
    segments_loop data i acc s ps = (acc', s', ps')
    /\ concat (positions <$> acc') ++ ps'
       = concat (positions <$> acc) ++ ps ++ (fr_x <$> data)
    /\ Forall (fun seg => positions seg <> [] /\ (end_frame seg < B)%Z) acc'
    /\ (ps' = [] -> ps = [] /\ data = []).
Proof.
  intros Hps Hacc Hdata. revert i acc s ps Hps Hacc.
  induction Hdata as [|rec data Hrec _ IH]; intros i acc s ps Hps Hacc.
  - exists acc, s, ps. simpl. rewrite app_nil_r. auto.
  - cbn [segments_loop].
    destruct (fr_scene rec && bool_decide (i > 0)%nat) eqn:Hcut.
    + apply andb_true_iff in Hcut as [_ Hi]. apply bool_decide_eq_true in Hi.
      destruct (IH (S i)
                  (acc ++ [{| start_frame := s;
                              end_frame := Z.of_nat (fr_num rec) - 1;
                              positions := ps |}])
                  (fr_num rec) [fr_x rec])
        as (acc' & s' & ps' & Hrun & Hcat & Hall & Hnil).
      * discriminate.
      * apply Forall_app. split; [exact Hacc|].
        repeat constructor; simpl; [apply Hps, Hi|lia].
      * exists acc', s', ps'. split; [exact Hrun|]. split; [|split].
        -- rewrite Hcat, fmap_app, concat_app. simpl.
           rewrite app_nil_r, <- !app_assoc. reflexivity.
        -- exact Hall.
        -- intros Hp. destruct (Hnil Hp) as [Habs _]. discriminate.
    + destruct (IH (S i) acc s (ps ++ [fr_x rec]))
        as (acc' & s' & ps' & Hrun & Hcat & Hall & Hnil).
      * intros _. destruct ps; discriminate.
      * exact Hacc.
      * exists acc', s', ps'. split; [exact Hrun|]. split; [|split].
        -- rewrite Hcat, fmap_cons, <- !app_assoc. reflexivity.
        -- exact Hall.
        -- intros Hp. destruct (Hnil Hp) as [Habs _].
           destruct ps; discriminate.
Qed.

Lemma get_scene_segments_spec (B : Z) (pl : State) :
  Forall (fun rec => (Z.of_nat (fr_num rec) < B)%Z) (frame_data pl) ->
  concat (positions <$> get_scene_segments pl) = fr_x <$> frame_data pl
  /\ Forall (fun seg => positions seg <> [] /\ (end_frame seg < B)%Z)
       (get_scene_segments pl).
Proof.
  intros Hdata. unfold get_scene_segments.
  destruct (segments_loop_spec B (frame_data pl) 0 [] 0%nat [])
    as (acc & s & ps & Hrun & Hcat & Hall & Hnil);
    [lia|constructor|exact Hdata|].
  rewrite Hrun. simpl in Hcat.
  destruct ps as [|x ps].
  - rewrite app_nil_r in Hcat. split; assumption.
  - destruct (last (frame_data pl)) as [rec|] eqn:Hlast.
    + split.
      * rewrite fmap_app, concat_app. simpl. rewrite app_nil_r. exact Hcat.
      * apply Forall_app. split; [exact Hall|].
        repeat constructor; simpl; [discriminate|].
        rewrite Forall_forall in Hdata. apply Hdata.
        apply last_Some in Hlast as [l ->]. apply elem_of_app. right. left.
    + apply last_None in Hlast. rewrite Hlast in Hcat. simpl in Hcat.
      destruct (concat (positions <$> acc)); discriminate.
Qed.

Lemma frame_numbers_bounded (data : list FrameRecord) :
  exists B : Z, Forall (fun rec => (Z.of_nat (fr_num rec) < B)%Z) data.
Proof.
  induction data as [|rec data [B HB]].
  - exists 0%Z. constructor.
  - exists (Z.max B (Z.of_nat (fr_num rec) + 1)). constructor; [lia|].
    eapply Forall_impl; [exact HB|]. simpl. intros. lia.
Qed.

(** X15. The scene segments keep every raw position once and in order:
    their position lists, put end to end, are the x of the records; and
    no segment has an empty position list. *)
Theorem segments_keep_positions (pl : State) :
  concat (positions <$> get_scene_segments pl) = fr_x <$> frame_data pl
  /\ Forall (fun seg => positions seg <> []) (get_scene_segments pl).
Proof.
  destruct (frame_numbers_bounded (frame_data pl)) as [B HB].
  destruct (get_scene_segments_spec B pl HB) as [Hcat Hall].
  split; [exact Hcat|]. eapply Forall_impl; [exact Hall|].
  simpl. tauto.
Qed.

(** *** The second pass runs to the end and stays normalized *)

Definition unit_interval (x : R) : Prop := 0 <= x <= 1.

(** The inner loop runs to the end when its frames are within
    [smoothed_centers]. *)
Lemma smooth_frames_runs (ba dt : R) (ps : list R) (m s i : nat)
    (last_x : R) (sc : list R) :
  (s + m <= length sc)%nat ->
  exists sc', smooth_frames ba dt ps i (seq s m) last_x sc = Ok sc'.
Proof.
  revert s i last_x sc. induction m as [|m IH]; intros s i last_x sc Hlen.
  - exists sc. reflexivity.
  - cbn [seq smooth_frames]. destruct (ps !! i) as [target_x|];
      [|exists sc; reflexivity].
    rewrite decide_True by lia. apply IH. rewrite length_insert. lia.
Qed.

Lemma smooth_segments_runs (ba dt : R) (segs : list Segment) (sc : list R) :
  Forall (fun seg => positions seg <> []
                     /\ (end_frame seg < Z.of_nat (length sc))%Z) segs ->
  exists sc', smooth_segments ba dt segs sc = Ok sc'.
Proof.
  revert sc. induction segs as [|seg segs IH]; intros sc Hall.
  - exists sc. reflexivity.
  - apply Forall_cons in Hall as [[Hne Hend] Hall].
    cbn [smooth_segments].
    assert (Hseg : exists sc1, smooth_segment ba dt seg sc = Ok sc1).
    { unfold smooth_segment, frame_range.
      destruct (positions seg) as [|x0 ps]; [congruence|].
      destruct (Z.to_nat (end_frame seg + 1 - Z.of_nat (start_frame seg)))
        as [|m] eqn:Hm; [exists sc; reflexivity|].
      apply smooth_frames_runs. lia. }
    destruct Hseg as [sc1 Hseg]. rewrite Hseg. cbn [Py.bind].
    apply IH.
    destruct (smooth_segment_untouched ba dt seg sc sc1 Hseg) as [Hlen _].
    rewrite Hlen. exact Hall.
Qed.

(** X16. The second pass raises on no planner whose records are all of
    frames below [total_frames], and returns one centre per frame. *)
Theorem interpolate_and_smooth_runs (pl : State) (total_frames : nat)
    (ba dt : R) :
  Forall (fun rec => (fr_num rec < total_frames)%nat) (frame_data pl) ->
  exists sc,
    interpolate_and_smooth pl total_frames ba dt = Ok sc
    /\ length sc = total_frames.
Proof.
  intros Hdata. unfold interpolate_and_smooth.
  destruct (get_scene_segments_spec (Z.of_nat total_frames) pl) as [_ Hsegs].
  { eapply Forall_impl; [exact Hdata|]. simpl. intros. lia. }
  destruct (smooth_segments_runs ba dt (get_scene_segments pl)
              (replicate total_frames default_x)) as [sc Hrun].
  { rewrite length_replicate. exact Hsegs. }
  exists sc. split; [exact Hrun|].
  destruct (smooth_segments_untouched ba dt _ _ _ Hrun) as [Hlen _].
  rewrite Hlen. apply length_replicate.
Qed.

Lemma interpolate_and_smooth_runs_witness :
  exists sc,
    interpolate_and_smooth cut_run 4 base_alpha delta_threshold = Ok sc
    /\ length sc = 4%nat.
Proof.
  apply interpolate_and_smooth_runs. rewrite cut_run_frame_data.
  repeat (apply Forall_cons_2; [simpl; lia|]). apply Forall_nil_2.
Defined.

Section Smooth.
Variables (ba dt : R) (ps : list R).
Hypothesis Hba : 0 <= ba <= 1.
Hypothesis Hps : Forall unit_interval ps.

Lemma smooth_step_unit (last_x target_x : R) :
  unit_interval last_x -> unit_interval target_x ->
  unit_interval (smooth_step ba dt last_x target_x).
Proof using Hba.
  unfold unit_interval. intros Hl Ht.
  destruct (smooth_step_convex ba dt last_x target_x) as (k & Hk & ->); [lra|].
  nra.
Qed.

Lemma smooth_frames_unit (frames : list nat) (i : nat) (last_x : R)
    (sc sc' : list R) :
  smooth_frames ba dt ps i frames last_x sc = Ok sc' ->
  unit_interval last_x -> Forall unit_interval sc ->
  Forall unit_interval sc'.
Proof using Hba Hps.
  revert i last_x sc. induction frames as [|frame frames IH];
    intros i last_x sc; cbn [smooth_frames].
  - intros [= <-] _ Hsc. exact Hsc.
  - destruct (ps !! i) as [target_x|] eqn:Hi;
      [|intros [= <-] _ Hsc; exact Hsc].
    case_decide; [|discriminate]. intros Hrun Hl Hsc.
    assert (Ht : unit_interval target_x).
    { rewrite Forall_lookup in Hps. exact (Hps i target_x Hi). }
    apply (IH _ _ _ Hrun); [apply smooth_step_unit; assumption|].
    apply Forall_insert; [exact Hsc|apply smooth_step_unit; assumption].
Qed.

End Smooth.

Lemma smooth_segments_unit (ba dt : R) (segs : list Segment) (sc sc' : list R) :
  0 <= ba <= 1 ->
  Forall (fun seg => Forall unit_interval (positions seg)) segs ->
  smooth_segments ba dt segs sc = Ok sc' ->
  Forall unit_interval sc -> Forall unit_interval sc'.
Proof.
  intros Hba Hsegs. revert sc.
  induction Hsegs as [|seg segs Hseg _ IH]; intros sc; cbn [smooth_segments].
  - intros [= <-] Hsc. exact Hsc.
  - destruct (smooth_segment ba dt seg sc) as [sc1|] eqn:Hrun1; [|discriminate].
    cbn [Py.bind]. intros Hrun Hsc. apply (IH sc1 Hrun).
    unfold smooth_segment in Hrun1.
    destruct (positions seg) as [|x0 ps] eqn:Hps; [discriminate|].
    apply (smooth_frames_unit ba dt (x0 :: ps) Hba Hseg _ _ _ _ _ Hrun1);
      [|exact Hsc].
    apply Forall_cons in Hseg as [Hx _]. exact Hx.
Qed.

Lemma interpolate_unit (pl : State) (total_frames : nat) (ba dt : R)
    (sc : list R) :
  0 <= ba <= 1 ->
  Forall (fun rec => unit_interval (fr_x rec)) (frame_data pl) ->
  interpolate_and_smooth pl total_frames ba dt = Ok sc ->
  Forall unit_interval sc.
Proof.
  intros Hba Hdata Hrun. unfold interpolate_and_smooth in Hrun.
  apply (smooth_segments_unit ba dt _ _ _ Hba) in Hrun; [exact Hrun| |].
  - destruct (frame_numbers_bounded (frame_data pl)) as [B HB].
    destruct (get_scene_segments_spec B pl HB) as [Hcat _].
    apply Forall_forall. intros seg Hseg. apply Forall_forall. intros x Hx.
    assert (Hin : x ∈ fr_x <$> frame_data pl).
    { rewrite <- Hcat. apply list_elem_of_In, in_concat.
      exists (positions seg). split; apply list_elem_of_In; [|exact Hx].
      apply list_elem_of_fmap. exists seg. auto. }
    apply list_elem_of_fmap in Hin as (rec & -> & Hrec).
    rewrite Forall_forall in Hdata. exact (Hdata rec Hrec).
  - apply Forall_replicate. unfold unit_interval, default_x, DEFAULT_CENTER.
    lra.
Qed.

(** X17. When the x of every record lies in [0, 1] and [base_alpha] is
    between 0 and 1, every smoothed centre the second pass returns lies in
    [0, 1]. *)
Theorem smoothed_centres_normalized (pl : State) (total_frames : nat)
    (ba dt : R) (sc : list R) :
  0 <= ba <= 1 ->
  Forall (fun rec => 0 <= fr_x rec <= 1) (frame_data pl) ->
  interpolate_and_smooth pl total_frames ba dt = Ok sc ->
  Forall (fun x => 0 <= x <= 1) sc.
Proof. exact (interpolate_unit pl total_frames ba dt sc). Qed.

Lemma smoothed_centres_normalized_witness :
  Forall (fun x => 0 <= x <= 1) [1 / 5; 1 / 2; 49991 / 100000; 1 / 2].
Proof.
  apply (smoothed_centres_normalized cut_run 4 base_alpha delta_threshold).
  - unfold base_alpha. lra.
  - rewrite cut_run_frame_data.
    repeat (apply Forall_cons_2; [simpl; lra|]). apply Forall_nil_2.
  - exact cut_run_smoothed.
Defined.

(** *** The first pass keeps its records normalized *)

(** Records of frames below [n] with x in [0, 1], and a history in
    [0, 1]. *)
Definition tidy (n : nat) (pl : State) : Prop :=
  Forall (fun rec => (fr_num rec < n)%nat /\ unit_interval (fr_x rec))
    (frame_data pl)
  /\ Forall unit_interval (position_history pl).

Lemma py_sum_bounds (l : list R) :
  Forall unit_interval l -> 0 <= py_sum l <= INR (length l).
Proof.
  unfold py_sum. intros Hl.
  enough (H : forall a, a <= fold_left Rplus l a <= a + INR (length l))
    by (specialize (H 0); lra).
  induction Hl as [|x l Hx _ IH]; intros a.
  - simpl. lra.
  - cbn [fold_left length]. rewrite S_INR. specialize (IH (a + x)).
    unfold unit_interval in Hx. lra.
Qed.

Lemma blend_unit (t : R) (h : list R) :
  unit_interval t -> Forall unit_interval h -> (length h > 1)%nat ->
  unit_interval (t * (1 - centering_weight)
                 + py_sum h / INR (length h) * centering_weight).
Proof.
  unfold unit_interval, centering_weight. intros Ht Hh Hlen.
  pose proof (py_sum_bounds h Hh) as [Hlo Hhi].
  assert (Hn : 0 < INR (length h)) by (apply lt_0_INR; lia).
  assert (Havg : 0 <= py_sum h / INR (length h) <= 1).
  { split.
    - apply Rmult_le_pos; [exact Hlo|left; apply Rinv_0_lt_compat; exact Hn].
    - apply (Rmult_le_reg_r (INR (length h))); [exact Hn|].
      unfold Rdiv. rewrite Rmult_assoc, Rinv_l by lra. lra. }
  lra.
Qed.

Lemma last_x_of_unit (n : nat) (data : list FrameRecord) (x : R) :
  Forall (fun rec => (fr_num rec < n)%nat /\ unit_interval (fr_x rec)) data ->
  last_x_of data = Some x -> unit_interval x.
Proof.
  intros Hdata. unfold last_x_of.
  destruct (last data) as [rec|] eqn:Hlast; [|discriminate].
  intros [= <-]. apply last_Some in Hlast as [l ->].
  apply Forall_app in Hdata as [_ Hrec]. apply Forall_cons in Hrec as [[_ Hx] _].
  exact Hx.
Qed.

Lemma tidy_snoc (n : nat) (data : list FrameRecord) (x : R) (b : bool) :
  Forall (fun rec => (fr_num rec < n)%nat /\ unit_interval (fr_x rec)) data ->
  unit_interval x ->
  Forall (fun rec => (fr_num rec < S n)%nat /\ unit_interval (fr_x rec))
    (data ++ [{| fr_num := n; fr_x := x; fr_scene := b |}]).
Proof.
  intros Hdata Hx. apply Forall_app. split.
  - eapply Forall_impl; [exact Hdata|]. simpl. intros rec [Hn Hu].
    split; [lia|exact Hu].
  - apply Forall_cons_2; [|apply Forall_nil_2]. simpl.
    split; [lia|exact Hx].
Qed.

Lemma plan_movement_tidy (pl : State) (n : nat) (cluster : option Cluster)
    (d thr : R) :
  tidy n pl ->
  (forall c, cluster = Some c -> unit_interval (cl_x c)) ->
  tidy (S n) (plan_movement pl n cluster d thr).
Proof.
  intros [Hdata Hhist] Hc. unfold plan_movement.
  assert (Hhalf : unit_interval default_x)
    by (unfold unit_interval, default_x, DEFAULT_CENTER; lra).
  destruct (decide (d > thr)).
  { split; simpl; [apply tidy_snoc; assumption|constructor]. }
  assert (Hback : forall c, unit_interval (cl_x c) ->
            Forall (fun rec => (fr_num rec < S n)%nat /\ unit_interval (fr_x rec))
              (backfill (current_scene_start pl) (cl_x c) <$> frame_data pl)).
  { intros c Hx. apply Forall_fmap. eapply Forall_impl; [exact Hdata|].
    simpl. intros rec [Hn Hu]. unfold backfill.
    repeat (case_decide || case_match); simpl; (split; [lia|assumption]). }
  assert (Htarget : unit_interval
            match cluster with
            | Some c => cl_x c
            | None => default default_x (last_x_of (frame_data pl))
            end).
  { destruct cluster as [c|]; [apply Hc; reflexivity|].
    destruct (last_x_of (frame_data pl)) as [x|] eqn:Hl; simpl;
      [eapply last_x_of_unit; eassumption|exact Hhalf]. }
  set (target0 := match cluster with
                  | Some c => cl_x c
                  | None => default default_x (last_x_of (frame_data pl))
                  end) in *.
  assert (Hnormal :
    tidy (S n)
      match last_x_of (frame_data pl) with
      | None =>
          {| frame_data :=
               frame_data pl
               ++ [{| fr_num := n; fr_x := target0; fr_scene := false |}];
             current_scene_start := current_scene_start pl;
             waiting_for_detection := waiting_for_detection pl;
             position_history := position_history pl;
             in_transition := in_transition pl;
             stable_frames := stable_frames pl;
             stable_frames_required := stable_frames_required pl;
             is_centering := is_centering pl |}
      | Some last_x =>
          let distance_to_target := Py.abs (target0 - last_x) in
          let max_move := max_movement_per_frame in
          let movement := target0 - last_x in
          let target_x :=
            if decide (Py.abs movement > max_move) then
              last_x + (if decide (movement > 0) then max_move
                        else - max_move)
            else target0 in
          let '(stable, centering, history) :=
            if decide (distance_to_target < fast_transition_threshold) then
              let stable := (stable_frames pl + 1)%nat in
              (stable,
               if decide (Z.of_nat stable >= stable_frames_required pl)%Z
               then true else is_centering pl,
               position_history pl)
            else (0%nat, false, []) in
          let '(history, target_x) :=
            if centering then
              let history := history ++ [target_x] in
              let history :=
                if decide (length history > history_size)%nat
                then drop 1 history else history in
              if decide (length history > 1)%nat then
                let avg_pos := py_sum history / INR (length history) in
                (history,
                 target_x * (1 - centering_weight)
                 + avg_pos * centering_weight)
              else (history, target_x)
            else (history, target_x) in
          {| frame_data :=
               frame_data pl
               ++ [{| fr_num := n; fr_x := target_x; fr_scene := false |}];
             current_scene_start := current_scene_start pl;
             waiting_for_detection := waiting_for_detection pl;
             position_history := history;
             in_transition := in_transition pl;
             stable_frames := stable;
             stable_frames_required := stable_frames_required pl;
             is_centering := centering |}
      end).
  { destruct (last_x_of (frame_data pl)) as [last_x|] eqn:Hl.
    2:{ split; simpl; [apply tidy_snoc; assumption|exact Hhist]. }
    assert (Hlast : unit_interval last_x)
      by (eapply last_x_of_unit; eassumption).
    cbv zeta. unfold Py.abs.
    set (clamped := if decide (Rabs (target0 - last_x) > max_movement_per_frame)
                    then last_x + (if decide (target0 - last_x > 0)
                                   then max_movement_per_frame
                                   else - max_movement_per_frame)
                    else target0).
    assert (Hclamped : unit_interval clamped).
    { subst clamped. unfold unit_interval, max_movement_per_frame in *.
      unfold Rabs. destruct (Rcase_abs (target0 - last_x));
        repeat case_decide; lra. }
    clearbody clamped.
    assert (Hh2 : Forall unit_interval [clamped])
      by (apply Forall_cons_2; [exact Hclamped|apply Forall_nil_2]).
    assert (Hh1 : Forall unit_interval (position_history pl ++ [clamped]))
      by (apply Forall_app; split; [exact Hhist|exact Hh2]).
    repeat (case_decide || case_match); simplify_eq; split; simpl;
      first [ apply tidy_snoc; [exact Hdata|];
              first [ exact Hclamped
                    | apply blend_unit;
                      [exact Hclamped
                      |first [apply Forall_drop; assumption | assumption]
                      |assumption] ]
            | assumption
            | apply Forall_drop; assumption
            | constructor ]. }
  destruct (waiting_for_detection pl) eqn:Hw, cluster as [c|];
    try exact Hnormal.
  split; simpl; [apply Hback, Hc; reflexivity|exact Hhist].
Qed.

(** *** The rate limit *)

(** X20. A normal update that ends with centering off appends a record
    whose x is within [max_movement_per_frame] (0.03) of the x of the last
    record. *)
Theorem plan_movement_rate_limited (pl : State) (n : nat)
    (cluster : option Cluster) (d thr last_x : R) :
  ~ d > thr ->
  waiting_for_detection pl = false \/ cluster = None ->
  last_x_of (frame_data pl) = Some last_x ->
  is_centering (plan_movement pl n cluster d thr) = false ->
  exists x,
    frame_data (plan_movement pl n cluster d thr)
    = frame_data pl ++ [{| fr_num := n; fr_x := x; fr_scene := false |}]
    /\ Rabs (x - last_x) <= max_movement_per_frame.
Proof.
  intros Hd Hn Hl. unfold plan_movement. rewrite decide_False by exact Hd.
  assert (Hgoal :
    forall target0 : R,
      is_centering
        (let distance_to_target := Py.abs (target0 - last_x) in
         let max_move := max_movement_per_frame in
         let movement := target0 - last_x in
         let target_x :=
           if decide (Py.abs movement > max_move) then
             last_x + (if decide (movement > 0) then max_move else - max_move)
           else target0 in
         let '(stable, centering, history) :=
           if decide (distance_to_target < fast_transition_threshold) then
             let stable := (stable_frames pl + 1)%nat in
             (stable,
              if decide (Z.of_nat stable >= stable_frames_required pl)%Z
              then true else is_centering pl,
              position_history pl)
           else (0%nat, false, []) in
         let '(history, target_x) :=
           if centering then
             let history := history ++ [target_x] in
             let history :=
               if decide (length history > history_size)%nat
               then drop 1 history else history in
             if decide (length history > 1)%nat then
               let avg_pos := py_sum history / INR (length history) in
               (history,
                target_x * (1 - centering_weight) + avg_pos * centering_weight)
             else (history, target_x)
           else (history, target_x) in
         {| frame_data :=
              frame_data pl
              ++ [{| fr_num := n; fr_x := target_x; fr_scene := false |}];
            current_scene_start := current_scene_start pl;
            waiting_for_detection := waiting_for_detection pl;
            position_history := history;
            in_transition := in_transition pl;
            stable_frames := stable;
            stable_frames_required := stable_frames_required pl;
            is_centering := centering |}) = false ->
      exists x,
        frame_data
          (let distance_to_target := Py.abs (target0 - last_x) in
           let max_move := max_movement_per_frame in
           let movement := target0 - last_x in
           let target_x :=
             if decide (Py.abs movement > max_move) then
               last_x + (if decide (movement > 0) then max_move else - max_move)
             else target0 in
           let '(stable, centering, history) :=
             if decide (distance_to_target < fast_transition_threshold) then
               let stable := (stable_frames pl + 1)%nat in
               (stable,
                if decide (Z.of_nat stable >= stable_frames_required pl)%Z
                then true else is_centering pl,
                position_history pl)
             else (0%nat, false, []) in
           let '(history, target_x) :=
             if centering then
               let history := history ++ [target_x] in
               let history :=
                 if decide (length history > history_size)%nat
                 then drop 1 history else history in
               if decide (length history > 1)%nat then
                 let avg_pos := py_sum history / INR (length history) in
                 (history,
                  target_x * (1 - centering_weight) + avg_pos * centering_weight)
               else (history, target_x)
             else (history, target_x) in
           {| frame_data :=
                frame_data pl
                ++ [{| fr_num := n; fr_x := target_x; fr_scene := false |}];
              current_scene_start := current_scene_start pl;
              waiting_for_detection := waiting_for_detection pl;
              position_history := history;
              in_transition := in_transition pl;
              stable_frames := stable;
              stable_frames_required := stable_frames_required pl;
              is_centering := centering |})
        = frame_data pl ++ [{| fr_num := n; fr_x := x; fr_scene := false |}]
        /\ Rabs (x - last_x) <= max_movement_per_frame).
  { intros target0. cbv zeta. unfold Py.abs, max_movement_per_frame.
    set (clamped := if decide (Rabs (target0 - last_x) > 3 / 100)
                    then last_x + (if decide (target0 - last_x > 0)
                                   then 3 / 100 else - (3 / 100))
                    else target0).
    assert (Hclamped : Rabs (clamped - last_x) <= 3 / 100).
    { subst clamped. repeat case_decide.
      - replace (last_x + 3 / 100 - last_x) with (3 / 100) by lra.
        rewrite Rabs_pos_eq; lra.
      - replace (last_x + - (3 / 100) - last_x) with (- (3 / 100)) by lra.
        rewrite Rabs_left; lra.
      - lra. }
    clearbody clamped.
    repeat (case_decide || case_match); simplify_eq; simpl;
      try discriminate; intros _; eexists; (split; [reflexivity|]);
      exact Hclamped. }
  destruct (waiting_for_detection pl) eqn:Hw, cluster as [c|];
    try (destruct Hn; discriminate); rewrite Hl; apply Hgoal.
Qed.

Lemma plan_movement_rate_limited_witness :
  exists x,
    frame_data (plan_movement cut_run 4 (Some left_person) 0
                  scene_change_threshold)
    = frame_data cut_run ++ [{| fr_num := 4; fr_x := x; fr_scene := false |}]
    /\ Rabs (x - 47 / 100) <= max_movement_per_frame.
Proof.
  assert (Hd : ~ 0 > scene_change_threshold)
    by (unfold scene_change_threshold; lra).
  assert (Hdata : frame_data (plan_movement cut_run 4 (Some left_person) 0
                                scene_change_threshold)
                  = frame_data cut_run
                    ++ [{| fr_num := 4;
                           fr_x := 47 / 100 + - max_movement_per_frame;
                           fr_scene := false |}]
                  /\ waiting_for_detection cut_run = false
                  /\ is_centering (plan_movement cut_run 4 (Some left_person) 0
                                     scene_change_threshold) = false).
  { pose proof cut_run_frame_data as Hfd.
    assert (Hw : waiting_for_detection cut_run = false).
    { unfold cut_run. rewrite first_pass_app.
      destruct (cut_then_candidate 30 left_person left_person) as [Hd3 Hw3].
      cbn zeta in Hd3, Hw3.
      set (pl3 := first_pass (MovementPlanner 30) 0 [_; _; _]) in *.
      cbn [first_pass length Nat.add].
      destruct (plan_movement_normal pl3 3 (Some left_person) 0
                  scene_change_threshold Hd (or_introl Hw3))
        as (x & _ & _ & Hw'). rewrite Hw'. exact Hw3. }
    split; [|split; [exact Hw|]].
    - apply plan_movement_far_below; [exact Hd|exact Hw| |].
      + rewrite Hfd. reflexivity.
      + unfold fast_transition_threshold. simpl. lra.
    - unfold plan_movement. rewrite decide_False by exact Hd.
      rewrite Hw, Hfd. cbn [last_x_of last fmap option_fmap option_map fr_x].
      unfold Py.abs. cbv zeta. simpl (cl_x left_person).
      rewrite (Rabs_left (1 / 5 - 47 / 100)) by lra.
      unfold max_movement_per_frame, fast_transition_threshold.
      decide_lra. reflexivity. }
  destruct Hdata as (Hfd' & Hw & Hcentering).
  apply (plan_movement_rate_limited cut_run 4 (Some left_person) 0
           scene_change_threshold (47 / 100) Hd (or_introl Hw));
    [|exact Hcentering].
  rewrite cut_run_frame_data. reflexivity.
Defined.

(** *** Segments start afresh *)

(** X21. Smoothing a segment starts from the segment's own first raw
    position: with a positive deadband, the centre of the segment's first
    frame is that position, whatever the centres held before. *)
Theorem segment_starts_at_first_position (ba dt : R) (seg : Segment)
    (sc sc' : list R) (x0 : R) :
  0 < dt ->
  head (positions seg) = Some x0 ->
  (Z.of_nat (start_frame seg) <= end_frame seg)%Z ->
  smooth_segment ba dt seg sc = Ok sc' ->
  sc' !! start_frame seg = Some x0.
Proof.
  intros Hdt Hhead Hrange. unfold smooth_segment, frame_range.
  destruct (positions seg) as [|x ps] eqn:Hps; [discriminate|].
  simpl in Hhead. injection Hhead as ->.
  replace (Z.to_nat (end_frame seg + 1 - Z.of_nat (start_frame seg)))
    with (S (Z.to_nat (end_frame seg - Z.of_nat (start_frame seg)))) by lia.
  cbn [seq smooth_frames lookup list_lookup].
  assert (Hhold : smooth_step ba dt x0 x0 = x0).
  { unfold smooth_step, Py.abs. replace (x0 - x0) with 0 by lra.
    rewrite Rabs_R0. rewrite decide_True by exact Hdt. reflexivity. }
  rewrite Hhold. case_decide as Hlen; [|discriminate].
  intros Hrun. apply smooth_frames_untouched in Hrun as [_ Hout].
  rewrite Hout by lia. apply list_lookup_insert_eq. exact Hlen.
Qed.

Lemma segment_starts_at_first_position_witness :
  [1 / 5; 1 / 2; 1 / 2] !! 0%nat = Some (1 / 5).
Proof.
  apply (segment_starts_at_first_position base_alpha delta_threshold
           {| start_frame := 0; end_frame := 0; positions := [1 / 5] |}
           [1 / 2; 1 / 2; 1 / 2]).
  - unfold delta_threshold. lra.
  - reflexivity.
  - simpl. lia.
  - unfold smooth_segment, frame_range. simpl.
    rewrite smooth_step_hold. reflexivity.
Defined.

End PlannerExtras.

(* ===================================================================== *)
(** ** From detections to the smoothed centres *)
(* ===================================================================== *)

Module VideoExtras.
Import Clustering Pipeline Planner.
Import ClusteringExtras PipelineExtras PlannerExtras.

Lemma plan_frame_tidy (pl : State) (n : nat) (keypoints : list Keypoint)
    (d : R) :
  tidy n pl -> Forall normalized_keypoint keypoints ->
  exists pl', plan_frame pl n keypoints d = Ok pl' /\ tidy (S n) pl'.
Proof.
  intros Hpl Hkps. unfold plan_frame.
  assert (Hbox : Forall (fun p => 0 <= x_pos p <= 1 /\ 0 <= y_pos p <= 1)
                   (people_of keypoints)).
  { apply Forall_forall. intros p Hp.
    apply people_from_spec in Hp as (k & kp & Hk & _ & ->). simpl.
    rewrite Forall_lookup in Hkps. destruct (Hkps k kp Hk) as (Hx & Hy & _).
    auto. }
  destruct (cluster_people_bounds (people_of keypoints) merge_threshold
              0 1 0 1 Hbox) as (out & Hrun & Hout).
  rewrite Hrun. cbn [Py.bind].
  destruct out as [|c0 rest].
  - eexists. split; [reflexivity|].
    apply plan_movement_tidy; [exact Hpl|discriminate].
  - eexists. split; [reflexivity|].
    apply plan_movement_tidy; [exact Hpl|]. intros c [= <-].
    destruct (max_by_conf_first_largest c0 rest) as (k & Hk & _).
    rewrite Forall_lookup in Hout. destruct (Hout k _ Hk) as (Hx & _).
    exact Hx.
Qed.

Lemma plan_frames_tidy (frames : list (list Keypoint * R)) (pl : State)
    (n : nat) :
  tidy n pl ->
  Forall (fun f => Forall normalized_keypoint (fst f)) frames ->
  exists pl',
    plan_frames pl n frames = Ok pl' /\ tidy (n + length frames) pl'.
Proof.
  revert pl n. induction frames as [|[kps d] frames IH]; intros pl n Hpl Hall.
  - exists pl. simpl. rewrite Nat.add_0_r. auto.
  - apply Forall_cons in Hall as [Hkps Hall]. simpl in Hkps.
    destruct (plan_frame_tidy pl n kps d Hpl Hkps) as (pl1 & Hstep & Hpl1).
    cbn [plan_frames length]. rewrite Hstep. cbn [Py.bind].
    replace (n + S (length frames))%nat with (S n + length frames)%nat by lia.
    apply IH; assumption.
Qed.

(** X18. For frames whose keypoint rows have normalized coordinates and
    confidences of at most 1, and a [total_frames] that is at least the
    number of frames read, both passes of [process_video] run without
    raising and give one centre per frame, each in [0, 1]; the centre the
    crop uses is in [0, 1] for every frame number. *)
Theorem process_video_centers_normalized (fps : R) (total_frames : nat)
    (frames : list (list Keypoint * R)) :
  Forall (fun f => Forall normalized_keypoint (fst f)) frames ->
  (length frames <= total_frames)%nat ->
  exists sc,
    process_video_centers fps total_frames frames = Ok sc
    /\ length sc = total_frames
    /\ Forall (fun x => 0 <= x <= 1) sc
    /\ forall frame_count, 0 <= norm_center_of sc frame_count <= 1.
Proof.
  intros Hall Hlen. unfold process_video_centers.
  destruct (plan_frames_tidy frames (MovementPlanner fps) 0)
    as (pl & Hplan & Hdata & _); [split; constructor|exact Hall|].
  rewrite Hplan. cbn [Py.bind]. simpl in Hdata.
  destruct (smooth_segments_runs base_alpha delta_threshold
              (get_scene_segments pl) (replicate total_frames default_x))
    as [sc Hrun].
  { rewrite length_replicate.
    apply (get_scene_segments_spec (Z.of_nat total_frames)).
    eapply Forall_impl; [exact Hdata|]. simpl. intros rec [Hn _]. lia. }
  assert (Hsc : interpolate_and_smooth pl total_frames base_alpha
                  delta_threshold = Ok sc) by exact Hrun.
  assert (Hunit : Forall unit_interval sc).
  { apply (interpolate_unit pl total_frames base_alpha delta_threshold);
      [unfold base_alpha; lra| |exact Hsc].
    eapply Forall_impl; [exact Hdata|]. simpl. tauto. }
  exists sc. split; [exact Hsc|]. split; [|split; [exact Hunit|]].
  - destruct (SmoothingProofs.smooth_segments_untouched _ _ _ _ _ Hrun)
      as [Hl _].
    rewrite Hl. apply length_replicate.
  - intros k. unfold norm_center_of, DEFAULT_CENTER.
    case_decide; [|lra].
    destruct (sc !! k) as [x|] eqn:Hk; simpl; [|lra].
    rewrite Forall_lookup in Hunit. exact (Hunit k x Hk).
Qed.

Lemma process_video_centers_normalized_witness :
  exists sc,
    process_video_centers 30 3
      [([mkKeypoint (1 / 2) (1 / 5) (9 / 10)], 0); ([], 5000)] = Ok sc
    /\ length sc = 3%nat
    /\ Forall (fun x => 0 <= x <= 1) sc
    /\ forall frame_count, 0 <= norm_center_of sc frame_count <= 1.
Proof.
  apply process_video_centers_normalized; [|simpl; lia].
  repeat (apply Forall_cons_2;
          [simpl; repeat (apply Forall_cons_2;
                            [unfold normalized_keypoint; simpl; lra|]);
           apply Forall_nil_2|]).
  apply Forall_nil_2.
Defined.

End VideoExtras.

(* ===================================================================== *)
(** ** Further properties of the crop window *)
(* ===================================================================== *)

Module CropExtras.
Import Crop CropProofs.

Lemma Int_part_mono (x y : R) : x <= y -> (Int_part x <= Int_part y)%Z.
Proof.
  intros Hxy. destruct (base_Int_part x) as [Hx _].
  destruct (base_Int_part y) as [_ Hy].
  assert (H : IZR (Int_part x) < IZR (Int_part y + 1))
    by (rewrite plus_IZR; simpl; lra).
  apply lt_IZR in H. lia.
Qed.

Lemma Int_part_nonneg (x : R) : 0 <= x -> (0 <= Int_part x)%Z.
Proof.
  intros Hx. destruct (base_Int_part x) as [_ Hgt].
  assert (H : IZR (-1) < IZR (Int_part x)) by lra.
  apply lt_IZR in H. lia.
Qed.

(** [int] is monotone. *)
Lemma int_mono (x y : R) : x <= y -> (Py.int x <= Py.int y)%Z.
Proof.
  intros Hxy. unfold Py.int. repeat case_decide.
  - apply Int_part_mono, Hxy.
  - lra.
  - assert (0 <= Int_part (- x))%Z by (apply Int_part_nonneg; lra).
    assert (0 <= Int_part y)%Z by (apply Int_part_nonneg; lra). lia.
  - assert (Int_part (- y) <= Int_part (- x))%Z by (apply Int_part_mono; lra).
    lia.
Qed.

(** X19. When the crop fits in the source, the window follows the
    centre: a centre further right never gives a window further left. *)
Theorem crop_window_monotone (c1 c2 : R) (width height : Z) :
  c1 <= c2 -> (0 <= width)%Z -> (crop_width_of height <= width)%Z ->
  (fst (crop_window c1 width height) <= fst (crop_window c2 width height))%Z
  /\ (snd (crop_window c1 width height)
      <= snd (crop_window c2 width height))%Z.
Proof.
  intros Hc Hw Hcw. unfold crop_window. fold (crop_width_of height).
  assert (Hint : (Py.int (c1 * IZR width) <= Py.int (c2 * IZR width))%Z).
  { apply int_mono. apply IZR_le in Hw. nra. }
  cbn [fst snd]. repeat case_decide; lia.
Qed.

Lemma crop_window_monotone_witness :
  (fst (crop_window (1 / 4) 1920 1080) <= fst (crop_window (3 / 4) 1920 1080))%Z
  /\ (snd (crop_window (1 / 4) 1920 1080)
      <= snd (crop_window (3 / 4) 1920 1080))%Z.
Proof.
  apply crop_window_monotone; [lra|lia|].
  assert (Hcw : crop_width_of 1080 = 607%Z)
    by (apply int_between; unfold ASPECT_RATIO; lra).
  rewrite Hcw. lia.
Defined.

End CropExtras.
